(** * The Mediator pattern of [design_patterns/behaviorals/mediator.py]

    A shallow embedding of the module: the object store of the Python
    program is an explicit heap, every method is a function in a small
    state-and-exception monad, and dynamic dispatch ([x.do_c()],
    [x.notify(..)]) is resolved on the class of the receiver at run time,
    as the interpreter does.  The state also carries a trace: the text
    written to standard output, in order, interleaved with ghost entries
    for object creations and method entries, so that the order of effects
    and calls can be stated. *)

From Stdlib Require Import Ascii String.
From stdpp Require Import base option list strings gmap fin_maps.

Open Scope string_scope.
Open Scope list_scope.

(** ** Values, objects, heap *)

(** Locations of instances in the heap. *)
Abbreviation loc := positive.

(** The values that flow through the module: [None], strings (event
    labels), references to instances. *)
Inductive val :=
  | VNone
  | VStr (s : string)
  | VRef (l : loc).

(** The five classes the module defines. *)
Inductive cls :=
  | Mediator
  | ConcreteMediator
  | BaseComponent
  | Component1
  | Component2.

(** An instance: its class and its [__dict__]. *)
Record obj := Obj { o_class : cls; o_dict : gmap string val }.

(** A method call as written at a call site: the method name with its
    arguments. *)
Inductive msg :=
  | notify (sender event : val)
  | do_a
  | do_b
  | do_c
  | do_d.

Inductive ev :=
  | EPrint (text : string)            (* text written to stdout *)
  | ENew (l : loc) (c : cls)          (* ghost: instance created *)
  | ECall (recv : loc) (m : msg).     (* ghost: method body entered *)

Record state := State { heap : gmap loc obj; log : list ev }.

(** The exceptions the interpreter raises in this module: attribute
    lookup failing on a value of the named type, and calling a value that
    is not callable. *)
Inductive exn :=
  | AttributeError (type_name attr : string)
  | TypeError_not_callable (type_name : string).

Inductive outcome (A : Type) :=
  | Done (a : A)
  | Raise (e : exn)
  | Stuck          (* a reference outside the heap: not a Python state *)
  | OutOfFuel.
Arguments Done {A} a.
Arguments Raise {A} e.
Arguments Stuck {A}.
Arguments OutOfFuel {A}.

(** ** The monad *)

Definition M (A : Type) : Type := state → outcome A * state.

Definition ret {A} (a : A) : M A := λ σ, (Done a, σ).

Definition bind {A B} (m : M A) (k : A → M B) : M B := λ σ,
  match m σ with
  | (Done a, σ') => k a σ'
  | (Raise e, σ') => (Raise e, σ')
  | (Stuck, σ') => (Stuck, σ')
  | (OutOfFuel, σ') => (OutOfFuel, σ')
  end.

Definition raise {A} (e : exn) : M A := λ σ, (Raise e, σ).
Definition stuck {A} : M A := λ σ, (Stuck, σ).
Definition out_of_fuel {A} : M A := λ σ, (OutOfFuel, σ).

Declare Scope py_scope.
Delimit Scope py_scope with py.
Notation "x <- m ;; k" := (bind m (λ x, k))
  (at level 100, m at next level, right associativity) : py_scope.
Notation "m ;;; k" := (bind m (λ _, k))
  (at level 100, right associativity) : py_scope.
Open Scope py_scope.

Definition emit (e : ev) : M unit := λ σ,
  (Done tt, State (heap σ) (log σ ++ [e])).

Definition newline : string := String "010"%char EmptyString.

(** [print(s, end=e)]; [e] defaults to a newline. *)
Definition print_end (s e : string) : M unit := emit (EPrint (s +:+ e)).
Definition print (s : string) : M unit := print_end s newline.

Definition deref (l : loc) : M obj := λ σ,
  match heap σ !! l with
  | Some o => (Done o, σ)
  | None => (Stuck, σ)
  end.

Definition store (l : loc) (o : obj) : M unit := λ σ,
  (Done tt, State (<[l := o]> (heap σ)) (log σ)).

(** ** The fragment of the Python object model the module relies on *)

Definition class_name (c : cls) : string :=
  match c with
  | Mediator => "Mediator"
  | ConcreteMediator => "ConcreteMediator"
  | BaseComponent => "BaseComponent"
  | Component1 => "Component1"
  | Component2 => "Component2"
  end.

(** [issubclass(c, BaseComponent)] *)
Definition is_component (c : cls) : bool :=
  match c with
  | BaseComponent | Component1 | Component2 => true
  | Mediator | ConcreteMediator => false
  end.

Definition type_name (v : val) : M string :=
  match v with
  | VNone => ret "NoneType"
  | VStr _ => ret "str"
  | VRef l => o <- deref l ;; ret (class_name (o_class o))
  end.

(** Reading an attribute that no class defines ([_mediator],
    [_component1], [_component2]): it is found in the instance's
    [__dict__] or the lookup fails. *)
Definition load_field (x : val) (name : string) : M val :=
  match x with
  | VRef l =>
      o <- deref l ;;
      match o_dict o !! name with
      | Some v => ret v
      | None => raise (AttributeError (class_name (o_class o)) name)
      end
  | VNone => raise (AttributeError "NoneType" name)
  | VStr _ => raise (AttributeError "str" name)
  end.

(** Writing an attribute that is not a property of the instance's class:
    it lands in the instance's [__dict__]; [None] and strings have none. *)
Definition store_field (x : val) (name : string) (v : val) : M unit :=
  match x with
  | VRef l =>
      o <- deref l ;;
      store l (Obj (o_class o) (<[name := v]> (o_dict o)))
  | VNone => raise (AttributeError "NoneType" name)
  | VStr _ => raise (AttributeError "str" name)
  end.

(** [event == "A"]: a string compares equal to the same string only. *)
Definition py_eq_str (v : val) (s : string) : bool :=
  match v with
  | VStr s' => bool_decide (s' = s)
  | _ => false
  end.

(** The name under which a method is looked up. *)
Definition method_name (m : msg) : string :=
  match m with
  | notify _ _ => "notify"
  | do_a => "do_a"
  | do_b => "do_b"
  | do_c => "do_c"
  | do_d => "do_d"
  end.

(** Instantiation allocates a fresh instance with an empty [__dict__];
    the class's [__init__] then runs on it. *)
Definition new (c : cls) : M val := λ σ,
  let l := fresh (dom (heap σ)) in
  (Done (VRef l), State (<[l := Obj c ∅]> (heap σ)) (log σ ++ [ENew l c])).

(** ** The module, method by method *)

(** [Mediator.notify]: [pass]. *)
Definition Mediator_notify (self sender event : val) : M unit := ret tt.

(** [BaseComponent.__init__] *)
Definition BaseComponent_init (self mediator : val) : M unit :=
  store_field self "_mediator" mediator.

(** The [mediator] property of [BaseComponent]: getter and setter. *)
Definition BaseComponent_mediator_get (self : val) : M val :=
  load_field self "_mediator".

Definition BaseComponent_mediator_set (self mediator : val) : M unit :=
  store_field self "_mediator" mediator.

(** [x.mediator]: the property is a data descriptor of the component
    classes and takes precedence there; on any other instance the name is
    an ordinary attribute. *)
Definition get_mediator (x : val) : M val :=
  match x with
  | VRef l =>
      o <- deref l ;;
      if is_component (o_class o) then BaseComponent_mediator_get x
      else load_field x "mediator"
  | _ => load_field x "mediator"
  end.

(** [x.mediator = v] *)
Definition set_mediator (x v : val) : M unit :=
  match x with
  | VRef l =>
      o <- deref l ;;
      if is_component (o_class o) then BaseComponent_mediator_set x v
      else store_field x "mediator" v
  | _ => store_field x "mediator" v
  end.

Section Methods.
(** Method calls made from a method body go through the dispatcher,
    which is tied to the bodies below in [invoke]. *)
Variable call : val → msg → M unit.

(** [ConcreteMediator.__init__] *)
Definition ConcreteMediator_init (self component1 component2 : val) : M unit :=
  store_field self "_component1" component1 ;;;
  c1 <- load_field self "_component1" ;;
  set_mediator c1 self ;;;
  store_field self "_component2" component2 ;;;
  c2 <- load_field self "_component2" ;;
  set_mediator c2 self.

(** [ConcreteMediator.notify] *)
Definition ConcreteMediator_notify (self sender event : val) : M unit :=
  if py_eq_str event "A" then
    print "Mediator reacts on A and triggers following operations:" ;;;
    c2 <- load_field self "_component2" ;;
    call c2 do_c
  else if py_eq_str event "D" then
    print "Mediator reacts on D and triggers following operations:" ;;;
    c1 <- load_field self "_component1" ;;
    call c1 do_b ;;;
    c2 <- load_field self "_component2" ;;
    call c2 do_c
  else ret tt.

(** [Component1.do_a], [Component1.do_b] *)
Definition Component1_do_a (self : val) : M unit :=
  print "Component 1 does A." ;;;
  m <- get_mediator self ;;
  call m (notify self (VStr "A")).

Definition Component1_do_b (self : val) : M unit :=
  print "Component 1 does B." ;;;
  m <- get_mediator self ;;
  call m (notify self (VStr "B")).

(** [Component2.do_c], [Component2.do_d] *)
Definition Component2_do_c (self : val) : M unit :=
  print "Component 2 does C." ;;;
  m <- get_mediator self ;;
  call m (notify self (VStr "C")).

Definition Component2_do_d (self : val) : M unit :=
  print "Component 2 does D." ;;;
  m <- get_mediator self ;;
  call m (notify self (VStr "D")).

(** The method a class provides for a call, through its bases. *)
Definition lookup_method (c : cls) (m : msg) : option (val → M unit) :=
  match m, c with
  | notify sender event, Mediator =>
      Some (λ self, Mediator_notify self sender event)
  | notify sender event, ConcreteMediator =>
      Some (λ self, ConcreteMediator_notify self sender event)
  | do_a, Component1 => Some Component1_do_a
  | do_b, Component1 => Some Component1_do_b
  | do_c, Component2 => Some Component2_do_c
  | do_d, Component2 => Some Component2_do_d
  | _, _ => None
  end.

(** [recv.m(..)]: an entry of the instance's [__dict__] under the
    method's name hides the method (and no value here is callable);
    otherwise the class decides. *)
Definition dispatch (recv : val) (m : msg) : M unit :=
  match recv with
  | VRef l =>
      o <- deref l ;;
      match o_dict o !! method_name m with
      | Some v => t <- type_name v ;; raise (TypeError_not_callable t)
      | None =>
          match lookup_method (o_class o) m with
          | Some body => emit (ECall l m) ;;; body recv
          | None =>
              raise (AttributeError (class_name (o_class o)) (method_name m))
          end
      end
  | VNone => raise (AttributeError "NoneType" (method_name m))
  | VStr _ => raise (AttributeError "str" (method_name m))
  end.
End Methods.

(** Nested calls are bounded by fuel; [invoke_total] below shows that
    four levels are always enough. *)
Fixpoint invoke (fuel : nat) (recv : val) (m : msg) : M unit :=
  match fuel with
  | 0 => out_of_fuel
  | S n => dispatch (invoke n) recv m
  end.

(** ** Constructors *)

(** [Component1(mediator)], [Component2(mediator)], [BaseComponent(mediator)];
    the argument defaults to [None]. *)
Definition new_component (c : cls) (mediator : val) : M val :=
  self <- new c ;;
  BaseComponent_init self mediator ;;;
  ret self.

(** [ConcreteMediator(component1, component2)] *)
Definition new_ConcreteMediator (component1 component2 : val) : M val :=
  self <- new ConcreteMediator ;;
  ConcreteMediator_init self component1 component2 ;;;
  ret self.

(** ** The script under [if __name__ == "__main__"] *)

Definition main (fuel : nat) : M unit :=
  c1 <- new_component Component1 VNone ;;
  c2 <- new_component Component2 VNone ;;
  mediator <- new_ConcreteMediator c1 c2 ;;
  print "Client triggers operation A." ;;;
  invoke fuel c1 do_a ;;;
  print_end newline EmptyString ;;;
  print "Client triggers operation D." ;;;
  invoke fuel c2 do_d.

(** Running the file: [name] is the module's [__name__], [argv] the
    command line, which the module never reads. *)
Definition run_module (name : string) (argv : list string) (fuel : nat) : M unit :=
  if bool_decide (name = "__main__") then main fuel else ret tt.

(** The interpreter's exit status: 0 when the script runs to its end, 1
    on an uncaught exception. *)
Definition exit_code {A} (r : outcome A * state) : option nat :=
  match r.1 with
  | Done _ => Some 0
  | Raise _ => Some 1
  | Stuck | OutOfFuel => None
  end.

Definition empty_state : state := State ∅ [].

(** The text written to standard output. *)
Definition is_print (e : ev) : option string :=
  match e with EPrint s => Some s | _ => None end.

Definition output (l : list ev) : list string := omap is_print l.

(** ** Object graphs *)

Definition class_of (h : gmap loc obj) (l : loc) : option cls :=
  o_class <$> h !! l.

Definition field (h : gmap loc obj) (l : loc) (name : string) : option val :=
  h !! l ≫= λ o, o_dict o !! name.

(** No entry of the instance's [__dict__] hides a method. *)
Definition unshadowed (h : gmap loc obj) (l : loc) : Prop :=
  field h l "notify" = None ∧ field h l "do_a" = None ∧
  field h l "do_b" = None ∧ field h l "do_c" = None ∧
  field h l "do_d" = None.

(** [m] is a [ConcreteMediator] bound to the [Component1] at [c1] and the
    [Component2] at [c2], and both components have [m] as their mediator:
    the graph that [ConcreteMediator(c1, c2)] sets up. *)
Definition attached (h : gmap loc obj) (m c1 c2 : loc) : Prop :=
  (class_of h m = Some ConcreteMediator ∧
   field h m "_component1" = Some (VRef c1) ∧
   field h m "_component2" = Some (VRef c2) ∧
   unshadowed h m) ∧
  (class_of h c1 = Some Component1 ∧
   field h c1 "_mediator" = Some (VRef m) ∧
   unshadowed h c1) ∧
  (class_of h c2 = Some Component2 ∧
   field h c2 "_mediator" = Some (VRef m) ∧
   unshadowed h c2).

(** A line of output as [print] writes it. *)
Definition line (s : string) : ev := EPrint (s +:+ newline).

Definition banner_A : string :=
  "Mediator reacts on A and triggers following operations:".
Definition banner_D : string :=
  "Mediator reacts on D and triggers following operations:".

(** * Properties *)

(** ** Evaluation lemmas *)

Lemma class_of_Some h l c :
  class_of h l = Some c → ∃ d, h !! l = Some (Obj c d).
Proof.
  unfold class_of. destruct (h !! l) as [[c' d]|] eqn:E; simpl; [|done].
  intros [= ->]. by exists d.
Qed.

Lemma field_at h l c d name :
  h !! l = Some (Obj c d) → field h l name = d !! name.
Proof. unfold field. by intros ->. Qed.

Lemma unshadowed_at h l c d (m : msg) :
  h !! l = Some (Obj c d) → unshadowed h l → d !! method_name m = None.
Proof.
  intros E (?&?&?&?&?). rewrite <- (field_at h l c d) by done.
  by destruct m.
Qed.

Lemma dispatch_method call h lg l c d (m : msg) body :
  h !! l = Some (Obj c d) → unshadowed h l →
  lookup_method call c m = Some body →
  dispatch call (VRef l) m (State h lg) =
  body (VRef l) (State h (lg ++ [ECall l m])).
Proof.
  intros E U L. unfold dispatch, bind, deref; simpl. rewrite E; simpl.
  rewrite (unshadowed_at h l c d m E U), L. done.
Qed.

Lemma get_mediator_component h lg l c d v :
  h !! l = Some (Obj c d) → is_component c = true → d !! "_mediator" = Some v →
  get_mediator (VRef l) (State h lg) = (Done v, State h lg).
Proof.
  intros E C F.
  unfold get_mediator, BaseComponent_mediator_get, load_field, bind, deref.
  simpl. rewrite E; simpl. rewrite C; simpl. rewrite E; simpl. by rewrite F.
Qed.

Lemma load_field_at h lg l c d name v :
  h !! l = Some (Obj c d) → d !! name = Some v →
  load_field (VRef l) name (State h lg) = (Done v, State h lg).
Proof.
  intros E F. unfold load_field, bind, deref. simpl. rewrite E; simpl.
  by rewrite F.
Qed.

(** Entering the method that the class of the receiver provides. *)
Ltac enter E U :=
  erewrite (dispatch_method _ _ _ _ _ _ _ _ E U); [|reflexivity].

Lemma print_run s h lg :
  print s (State h lg) = (Done tt, State h (lg ++ [line s])).
Proof. done. Qed.

(** A concrete mediator does not react to a label other than "A" and "D". *)
Lemma notify_quiet n h lg m sender event :
  class_of h m = Some ConcreteMediator → unshadowed h m →
  py_eq_str event "A" = false → py_eq_str event "D" = false →
  invoke (S n) (VRef m) (notify sender event) (State h lg) =
  (Done tt, State h (lg ++ [ECall m (notify sender event)])).
Proof.
  intros [d E]%class_of_Some U HA HD.
  change (invoke (S n)) with (dispatch (invoke n)). enter E U.
  unfold ConcreteMediator_notify. by rewrite HA, HD.
Qed.

(** The base [Mediator] does not react at all. *)
Lemma notify_base n h lg m sender event :
  class_of h m = Some Mediator → unshadowed h m →
  invoke (S n) (VRef m) (notify sender event) (State h lg) =
  (Done tt, State h (lg ++ [ECall m (notify sender event)])).
Proof.
  intros [d E]%class_of_Some U.
  change (invoke (S n)) with (dispatch (invoke n)). by enter E U.
Qed.

Section Graph.
Variables (h : gmap loc obj) (m c1 c2 : loc).
Hypothesis graph : attached h m c1 c2.

(** What each action of the graph leaves in the trace. *)
Definition trace_do_b : list ev :=
  [ECall c1 do_b; line "Component 1 does B.";
   ECall m (notify (VRef c1) (VStr "B"))].

Definition trace_do_c : list ev :=
  [ECall c2 do_c; line "Component 2 does C.";
   ECall m (notify (VRef c2) (VStr "C"))].

Definition trace_notify (sender event : val) : list ev :=
  ECall m (notify sender event) ::
  if py_eq_str event "A" then line banner_A :: trace_do_c
  else if py_eq_str event "D" then line banner_D :: trace_do_b ++ trace_do_c
  else [].

Definition trace_do_a : list ev :=
  [ECall c1 do_a; line "Component 1 does A."] ++
  trace_notify (VRef c1) (VStr "A").

Definition trace_do_d : list ev :=
  [ECall c2 do_d; line "Component 2 does D."] ++
  trace_notify (VRef c2) (VStr "D").

Lemma run_do_b n lg :
  invoke (S (S n)) (VRef c1) do_b (State h lg) =
  (Done tt, State h (lg ++ trace_do_b)).
Proof.
  destruct graph as ((Cm & _ & _ & Um) & (C1 & F1 & U1) & _).
  destruct (class_of_Some _ _ _ C1) as [d1 E1].
  rewrite (field_at _ _ _ _ _ E1) in F1.
  change (invoke (S (S n))) with (dispatch (invoke (S n))).
  enter E1 U1.
  unfold Component1_do_b, bind. rewrite print_run.
  rewrite (get_mediator_component _ _ _ _ _ _ E1 eq_refl F1).
  rewrite notify_quiet by done. by rewrite <- !(assoc_L (++)).
Qed.

Lemma run_do_c n lg :
  invoke (S (S n)) (VRef c2) do_c (State h lg) =
  (Done tt, State h (lg ++ trace_do_c)).
Proof.
  destruct graph as ((Cm & _ & _ & Um) & _ & (C2 & F2 & U2)).
  destruct (class_of_Some _ _ _ C2) as [d2 E2].
  rewrite (field_at _ _ _ _ _ E2) in F2.
  change (invoke (S (S n))) with (dispatch (invoke (S n))).
  enter E2 U2.
  unfold Component2_do_c, bind. rewrite print_run.
  rewrite (get_mediator_component _ _ _ _ _ _ E2 eq_refl F2).
  rewrite notify_quiet by done. by rewrite <- !(assoc_L (++)).
Qed.

Lemma run_notify n lg sender event :
  invoke (S (S (S n))) (VRef m) (notify sender event) (State h lg) =
  (Done tt, State h (lg ++ trace_notify sender event)).
Proof.
  destruct graph as ((Cm & Fm1 & Fm2 & Um) & _ & _).
  destruct (class_of_Some _ _ _ Cm) as [dm Em].
  rewrite (field_at _ _ _ _ _ Em) in Fm1.
  rewrite (field_at _ _ _ _ _ Em) in Fm2.
  change (invoke (S (S (S n)))) with (dispatch (invoke (S (S n)))).
  enter Em Um.
  unfold ConcreteMediator_notify, trace_notify.
  destruct (py_eq_str event "A"); [|destruct (py_eq_str event "D")].
  - unfold bind. rewrite print_run, (load_field_at _ _ _ _ _ _ _ Em Fm2).
    rewrite run_do_c. by rewrite <- !(assoc_L (++)).
  - unfold bind. rewrite print_run, (load_field_at _ _ _ _ _ _ _ Em Fm1).
    rewrite run_do_b, (load_field_at _ _ _ _ _ _ _ Em Fm2), run_do_c.
    by rewrite <- !(assoc_L (++)).
  - done.
Qed.

Lemma run_do_a n lg :
  invoke (S (S (S (S n)))) (VRef c1) do_a (State h lg) =
  (Done tt, State h (lg ++ trace_do_a)).
Proof.
  destruct graph as (_ & (C1 & F1 & U1) & _).
  destruct (class_of_Some _ _ _ C1) as [d1 E1].
  rewrite (field_at _ _ _ _ _ E1) in F1.
  change (invoke (S (S (S (S n))))) with (dispatch (invoke (S (S (S n))))).
  enter E1 U1.
  unfold Component1_do_a, bind. rewrite print_run.
  rewrite (get_mediator_component _ _ _ _ _ _ E1 eq_refl F1).
  rewrite run_notify. by rewrite <- !(assoc_L (++)).
Qed.

Lemma run_do_d n lg :
  invoke (S (S (S (S n)))) (VRef c2) do_d (State h lg) =
  (Done tt, State h (lg ++ trace_do_d)).
Proof.
  destruct graph as (_ & _ & (C2 & F2 & U2)).
  destruct (class_of_Some _ _ _ C2) as [d2 E2].
  rewrite (field_at _ _ _ _ _ E2) in F2.
  change (invoke (S (S (S (S n))))) with (dispatch (invoke (S (S (S n))))).
  enter E2 U2.
  unfold Component2_do_d, bind. rewrite print_run.
  rewrite (get_mediator_component _ _ _ _ _ _ E2 eq_refl F2).
  rewrite run_notify. by rewrite <- !(assoc_L (++)).
Qed.
End Graph.

(** ** Frame: calls only append to the trace

    A computation is [framed] when it leaves the heap as it found it and
    when its outcome and the entries it appends to the trace depend on the
    heap alone. *)

Definition framed {A} (c : M A) : Prop :=
  ∀ h, ∃ o t, ∀ lg, c (State h lg) = (o, State h (lg ++ t)).

Create HintDb framed discriminated.

Lemma framed_ret {A} (a : A) : framed (ret a).
Proof. intros h. exists (Done a), []. intros lg. by rewrite (right_id_L [] (++)). Qed.

Lemma framed_raise {A} e : framed (@raise A e).
Proof. intros h. exists (Raise e), []. intros lg. by rewrite (right_id_L [] (++)). Qed.

Lemma framed_out_of_fuel {A} : framed (@out_of_fuel A).
Proof. intros h. exists OutOfFuel, []. intros lg. by rewrite (right_id_L [] (++)). Qed.

Lemma framed_emit e : framed (emit e).
Proof. intros h. by exists (Done tt), [e]. Qed.

Lemma framed_bind {A B} (c : M A) (k : A → M B) :
  framed c → (∀ a, framed (k a)) → framed (bind c k).
Proof.
  intros Hc Hk h. destruct (Hc h) as (o & t & Ho). destruct o as [a|e| |].
  - destruct (Hk a h) as (o' & t' & Ho'). exists o', (t ++ t'). intros lg.
    unfold bind. by rewrite Ho, Ho', (assoc_L (++)).
  - exists (Raise e), t. intros lg. unfold bind. by rewrite Ho.
  - exists Stuck, t. intros lg. unfold bind. by rewrite Ho.
  - exists OutOfFuel, t. intros lg. unfold bind. by rewrite Ho.
Qed.

Lemma framed_deref l : framed (deref l).
Proof.
  intros h. unfold deref; simpl. destruct (h !! l) as [o|].
  - exists (Done o), []. intros lg. by rewrite (right_id_L [] (++)).
  - exists Stuck, []. intros lg. by rewrite (right_id_L [] (++)).
Qed.

Lemma framed_print s : framed (print s).
Proof. apply framed_emit. Qed.

#[local] Hint Resolve framed_ret framed_raise framed_out_of_fuel framed_emit
  framed_bind framed_deref framed_print : framed.

Ltac framed_cases :=
  repeat match goal with
  | |- framed (match ?x with _ => _ end) => destruct x eqn:?
  | |- framed (if ?b then _ else _) => destruct b
  | |- ∀ _, _ => intro
  | |- framed (bind _ _) => apply framed_bind
  | |- _ => solve [eauto with framed]
  end.

Lemma framed_type_name v : framed (type_name v).
Proof. unfold type_name. framed_cases. Qed.

Lemma framed_load_field x name : framed (load_field x name).
Proof. unfold load_field. framed_cases. Qed.

#[local] Hint Resolve framed_type_name framed_load_field : framed.

Lemma framed_get_mediator x : framed (get_mediator x).
Proof. unfold get_mediator, BaseComponent_mediator_get. framed_cases. Qed.

#[local] Hint Resolve framed_get_mediator : framed.

Lemma framed_body call c m body recv :
  (∀ r c', framed (call r c')) → lookup_method call c m = Some body →
  framed (body recv).
Proof.
  intros Hcall L. destruct m, c; simpl in L; simplify_eq;
    unfold Mediator_notify, ConcreteMediator_notify, Component1_do_a,
      Component1_do_b, Component2_do_c, Component2_do_d; framed_cases.
Qed.

Lemma framed_dispatch call recv m :
  (∀ r c, framed (call r c)) → framed (dispatch call recv m).
Proof.
  intros Hcall. unfold dispatch. framed_cases. by eapply framed_body.
Qed.

Lemma framed_invoke n recv m : framed (invoke n recv m).
Proof.
  revert recv m. induction n as [|n IH]; intros recv m; simpl.
  - apply framed_out_of_fuel.
  - by apply framed_dispatch.
Qed.

(** ** Termination: the nesting of calls is bounded

    [depth c] bounds the number of nested method entries that the call [c]
    can cause, whatever the heap: an action notifies, the mediator reacts
    to "A" and "D" by actions whose own notifications ("B", "C") it does
    not react to. *)

Definition depth (c : msg) : nat :=
  match c with
  | notify _ event =>
      if py_eq_str event "A" || py_eq_str event "D" then 3 else 1
  | do_b | do_c => 2
  | do_a | do_d => 4
  end.

Definition fuelled {A} (c : M A) : Prop := ∀ σ, (c σ).1 ≠ OutOfFuel.

Create HintDb fuelled discriminated.

Lemma fuelled_ret {A} (a : A) : fuelled (ret a).
Proof. by intros σ. Qed.

Lemma fuelled_raise {A} e : fuelled (@raise A e).
Proof. by intros σ. Qed.

Lemma fuelled_emit e : fuelled (emit e).
Proof. by intros σ. Qed.

Lemma fuelled_print s : fuelled (print s).
Proof. by intros σ. Qed.

Lemma fuelled_deref l : fuelled (deref l).
Proof. intros σ. unfold deref. by destruct (heap σ !! l). Qed.

Lemma fuelled_bind {A B} (c : M A) (k : A → M B) :
  fuelled c → (∀ a, fuelled (k a)) → fuelled (bind c k).
Proof.
  intros Hc Hk σ. unfold bind. specialize (Hc σ).
  destruct (c σ) as [[a|e| |] σ']; simpl in *; try done. apply Hk.
Qed.

#[local] Hint Resolve fuelled_ret fuelled_raise fuelled_emit fuelled_print
  fuelled_deref fuelled_bind : fuelled.

Ltac fuelled_cases :=
  repeat match goal with
  | |- fuelled (match ?x with _ => _ end) => destruct x eqn:?
  | |- fuelled (if ?b then _ else _) => destruct b eqn:?
  | |- ∀ _, _ => intro
  | |- fuelled (bind _ _) => apply fuelled_bind
  | |- _ => solve [eauto with fuelled]
  end.

Lemma fuelled_type_name v : fuelled (type_name v).
Proof. unfold type_name. fuelled_cases. Qed.

Lemma fuelled_load_field x name : fuelled (load_field x name).
Proof. unfold load_field. fuelled_cases. Qed.

#[local] Hint Resolve fuelled_type_name fuelled_load_field : fuelled.

Lemma fuelled_get_mediator x : fuelled (get_mediator x).
Proof. unfold get_mediator, BaseComponent_mediator_get. fuelled_cases. Qed.

#[local] Hint Resolve fuelled_get_mediator : fuelled.

Lemma fuelled_dispatch call recv c :
  (∀ r c', (depth c' < depth c)%nat → fuelled (call r c')) →
  fuelled (dispatch call recv c).
Proof.
  intros Hcall. unfold dispatch. fuelled_cases.
  match goal with H : lookup_method _ _ _ = Some _ |- _ => rename H into L end.
  destruct c, (o_class a); simpl in L; simplify_eq;
    unfold Mediator_notify, ConcreteMediator_notify, Component1_do_a,
      Component1_do_b, Component2_do_c, Component2_do_d; fuelled_cases;
    apply Hcall; simpl;
    repeat match goal with H : py_eq_str _ _ = _ |- _ => rewrite H end;
    simpl; lia.
Qed.

Lemma fuelled_invoke n recv c : (depth c ≤ n)%nat → fuelled (invoke n recv c).
Proof.
  revert recv c. induction n as [|n IH]; intros recv c Hd.
  - destruct c; simpl in Hd; try lia. destruct (_ || _); lia.
  - simpl. apply fuelled_dispatch. intros r c' Hlt. apply IH. lia.
Qed.

Lemma depth_le_4 c : (depth c ≤ 4)%nat.
Proof. destruct c; simpl; try lia. destruct (_ || _); lia. Qed.

(** Four levels of fuel are enough for any call on any heap. *)
Lemma invoke_total n recv c σ : (invoke (4 + n) recv c σ).1 ≠ OutOfFuel.
Proof. apply fuelled_invoke. pose proof (depth_le_4 c). lia. Qed.

(** ** Construction *)

Lemma deref_run h lg l o :
  h !! l = Some o → deref l (State h lg) = (Done o, State h lg).
Proof. unfold deref; simpl. by intros ->. Qed.

Lemma store_field_run h lg l c d name v :
  h !! l = Some (Obj c d) →
  store_field (VRef l) name v (State h lg) =
  (Done tt, State (<[l := Obj c (<[name := v]> d)]> h) lg).
Proof. intros E. unfold store_field, bind. by rewrite (deref_run _ _ _ _ E). Qed.

Lemma set_mediator_component h lg l c d v :
  h !! l = Some (Obj c d) → is_component c = true →
  set_mediator (VRef l) v (State h lg) =
  (Done tt, State (<[l := Obj c (<["_mediator" := v]> d)]> h) lg).
Proof.
  intros E C. unfold set_mediator, BaseComponent_mediator_set, bind.
  rewrite (deref_run _ _ _ _ E); simpl. rewrite C.
  by apply store_field_run.
Qed.

Lemma new_run c h lg :
  new c (State h lg) =
  (Done (VRef (fresh (dom h))),
   State (<[fresh (dom h) := Obj c ∅]> h) (lg ++ [ENew (fresh (dom h)) c])).
Proof. done. Qed.

(** The heap that [ConcreteMediator(c1, c2)] leaves, the new mediator
    being at [m]. *)
Definition bound_heap (h : gmap loc obj) (m c1 c2 : loc)
    (k1 k2 : cls) (d1 d2 : gmap string val) : gmap loc obj :=
  <[c2 := Obj k2 (<["_mediator" := VRef m]> d2)]>
    (<[m := Obj ConcreteMediator
              (<["_component2" := VRef c2]> (<["_component1" := VRef c1]> ∅))]>
       (<[c1 := Obj k1 (<["_mediator" := VRef m]> d1)]>
          (<[m := Obj ConcreteMediator (<["_component1" := VRef c1]> ∅)]>
             (<[m := Obj ConcreteMediator ∅]> h)))).

Lemma new_ConcreteMediator_run h lg c1 c2 k1 k2 d1 d2 :
  h !! c1 = Some (Obj k1 d1) → h !! c2 = Some (Obj k2 d2) →
  is_component k1 = true → is_component k2 = true → c1 ≠ c2 →
  let m := fresh (dom h) in
  new_ConcreteMediator (VRef c1) (VRef c2) (State h lg) =
  (Done (VRef m),
   State (bound_heap h m c1 c2 k1 k2 d1 d2) (lg ++ [ENew m ConcreteMediator])).
Proof.
  intros E1 E2 K1 K2 Hne m.
  assert (h !! m = None) as Hm by apply not_elem_of_dom, is_fresh.
  assert (m ≠ c1) as Hm1 by congruence.
  assert (m ≠ c2) as Hm2 by congruence.
  unfold new_ConcreteMediator, ConcreteMediator_init, bind.
  rewrite new_run. fold m. cbv beta iota.
  erewrite store_field_run by apply lookup_insert_eq.
  erewrite load_field_at by (apply lookup_insert_eq).
  erewrite set_mediator_component; [|by rewrite !lookup_insert_ne by done|done].
  erewrite store_field_run
    by (rewrite lookup_insert_ne by done; apply lookup_insert_eq).
  erewrite load_field_at; [|apply lookup_insert_eq|apply lookup_insert_eq].
  erewrite set_mediator_component;
    [|by rewrite !lookup_insert_ne by done|done].
  done.
Qed.

Section Bound.
Variables (h : gmap loc obj) (m c1 c2 : loc) (k1 k2 : cls).
Variables (d1 d2 : gmap string val).
Hypotheses (Hm1 : m ≠ c1) (Hm2 : m ≠ c2) (H12 : c1 ≠ c2).

Let h' := bound_heap h m c1 c2 k1 k2 d1 d2.

Lemma bound_heap_mediator :
  h' !! m =
  Some (Obj ConcreteMediator
          (<["_component2" := VRef c2]> (<["_component1" := VRef c1]> ∅))).
Proof.
  unfold h', bound_heap.
  rewrite lookup_insert_ne by done. by rewrite lookup_insert_eq.
Qed.

Lemma bound_heap_component1 :
  h' !! c1 = Some (Obj k1 (<["_mediator" := VRef m]> d1)).
Proof.
  unfold h', bound_heap.
  rewrite !lookup_insert_ne by done. by rewrite lookup_insert_eq.
Qed.

Lemma bound_heap_component2 :
  h' !! c2 = Some (Obj k2 (<["_mediator" := VRef m]> d2)).
Proof. unfold h', bound_heap. by rewrite lookup_insert_eq. Qed.

Lemma bound_heap_other l :
  l ≠ m → l ≠ c1 → l ≠ c2 → h' !! l = h !! l.
Proof.
  intros. unfold h', bound_heap. by rewrite !lookup_insert_ne by done.
Qed.
End Bound.

Lemma class_of_at h l c d : h !! l = Some (Obj c d) → class_of h l = Some c.
Proof. unfold class_of. by intros ->. Qed.

Lemma unshadowed_set_mediator h h' l c d v :
  h !! l = Some (Obj c d) → h' !! l = Some (Obj c (<["_mediator" := v]> d)) →
  unshadowed h l → unshadowed h' l.
Proof.
  intros E E' U. unfold unshadowed in *.
  rewrite !(field_at _ _ _ _ _ E) in U. rewrite !(field_at _ _ _ _ _ E').
  by rewrite !lookup_insert_ne by done.
Qed.

(** Binding a mediator to a [Component1] and a [Component2] whose
    methods are not hidden yields an attached graph. *)
Lemma new_ConcreteMediator_attached h lg c1 c2 :
  class_of h c1 = Some Component1 → class_of h c2 = Some Component2 →
  unshadowed h c1 → unshadowed h c2 →
  ∃ m h', new_ConcreteMediator (VRef c1) (VRef c2) (State h lg) =
            (Done (VRef m), State h' (lg ++ [ENew m ConcreteMediator])) ∧
          h !! m = None ∧ attached h' m c1 c2 ∧
          ∀ l, l ≠ m → l ≠ c1 → l ≠ c2 → h' !! l = h !! l.
Proof.
  intros [d1 E1]%class_of_Some [d2 E2]%class_of_Some U1 U2.
  assert (c1 ≠ c2) as H12 by congruence.
  set (m := fresh (dom h)).
  assert (h !! m = None) as Hm by apply not_elem_of_dom, is_fresh.
  assert (m ≠ c1) as Hm1 by congruence.
  assert (m ≠ c2) as Hm2 by congruence.
  exists m, (bound_heap h m c1 c2 Component1 Component2 d1 d2).
  split; [by apply new_ConcreteMediator_run|]. split; [done|].
  pose proof (bound_heap_mediator h m c1 c2 Component1 Component2 d1 d2 Hm2) as Bm.
  pose proof (bound_heap_component1 h m c1 c2 Component1 Component2 d1 d2 Hm1 H12) as B1.
  pose proof (bound_heap_component2 h m c1 c2 Component1 Component2 d1 d2) as B2.
  split; [|intros; by apply bound_heap_other].
  assert (unshadowed (bound_heap h m c1 c2 Component1 Component2 d1 d2) m) as Um.
  { unfold unshadowed. rewrite !(field_at _ _ _ _ _ Bm).
    rewrite !lookup_insert_ne by done. by rewrite lookup_empty. }
  assert (unshadowed (bound_heap h m c1 c2 Component1 Component2 d1 d2) c1) as U1'.
  { by eapply (unshadowed_set_mediator _ _ _ _ _ _ E1 B1). }
  assert (unshadowed (bound_heap h m c1 c2 Component1 Component2 d1 d2) c2) as U2'.
  { by eapply (unshadowed_set_mediator _ _ _ _ _ _ E2 B2). }
  unfold attached.
  rewrite (class_of_at _ _ _ _ Bm), (class_of_at _ _ _ _ B1),
    (class_of_at _ _ _ _ B2).
  rewrite !(field_at _ _ _ _ _ Bm), (field_at _ _ _ _ _ B1),
    (field_at _ _ _ _ _ B2).
  rewrite !lookup_insert_eq, lookup_insert_ne, lookup_insert_eq by done.
  done.
Qed.

(** ** Sample states *)

(** Two components created with no mediator, as the script's first two
    statements leave them: [Component1] at 1, [Component2] at 2. *)
Definition two_components : state :=
  ((new_component Component1 VNone ;;; new_component Component2 VNone)
     empty_state).2.

(** The same two components after [ConcreteMediator(c1, c2)], which lands
    at 3. *)
Definition one_graph : state :=
  (new_ConcreteMediator (VRef 1) (VRef 2) two_components).2.

(** A second graph built next to the first: components at 4 and 5, their
    mediator at 6. *)
Definition two_graphs : state :=
  ((c1 <- new_component Component1 VNone ;;
    c2 <- new_component Component2 VNone ;;
    new_ConcreteMediator c1 c2) one_graph).2.

Lemma one_graph_attached : attached (heap one_graph) 3 1 2.
Proof. by vm_compute. Qed.

Lemma two_graphs_attached :
  attached (heap two_graphs) 3 1 2 ∧ attached (heap two_graphs) 6 4 5.
Proof. by vm_compute. Qed.

(** * Specified behaviour *)

(** C1: [ConcreteMediator.notify] implements the dispatch table.  On a
    mediator bound to components 1 and 2: for "A" it prints its banner and
    invokes [do_c] on component 2; for "D" it prints its banner and invokes
    [do_b] on component 1, then [do_c] on component 2; for any other event
    it does nothing (the trace gains the entry into [notify] alone).  The
    nested notifications "B" and "C" are entered and cause nothing. *)
Theorem notify_dispatch_table h m c1 c2 n lg sender :
  attached h m c1 c2 →
  invoke (3 + n) (VRef m) (notify sender (VStr "A")) (State h lg) =
    (Done tt,
     State h (lg ++ [ECall m (notify sender (VStr "A")); line banner_A;
                     ECall c2 do_c; line "Component 2 does C.";
                     ECall m (notify (VRef c2) (VStr "C"))])) ∧
  invoke (3 + n) (VRef m) (notify sender (VStr "D")) (State h lg) =
    (Done tt,
     State h (lg ++ [ECall m (notify sender (VStr "D")); line banner_D;
                     ECall c1 do_b; line "Component 1 does B.";
                     ECall m (notify (VRef c1) (VStr "B"));
                     ECall c2 do_c; line "Component 2 does C.";
                     ECall m (notify (VRef c2) (VStr "C"))])) ∧
  ∀ event, event ≠ VStr "A" → event ≠ VStr "D" →
    invoke (3 + n) (VRef m) (notify sender event) (State h lg) =
    (Done tt, State h (lg ++ [ECall m (notify sender event)])).
Proof.
  intros G. split; [|split].
  - apply (run_notify h m c1 c2 G).
  - apply (run_notify h m c1 c2 G).
  - intros event HA HD. change (3 + n) with (S (S (S n))).
    rewrite (run_notify h m c1 c2 G).
    unfold trace_notify.
    assert (py_eq_str event "A" = false) as ->.
    { destruct event; simpl; try done. apply bool_decide_eq_false. congruence. }
    assert (py_eq_str event "D" = false) as ->; [|done].
    destruct event; simpl; try done. apply bool_decide_eq_false. congruence.
Qed.

Lemma notify_dispatch_table_witness :
  attached (heap one_graph) 3 1 2 ∧
  invoke 3 (VRef 3) (notify VNone (VStr "A")) (State (heap one_graph) []) =
    (Done tt,
     State (heap one_graph)
       [ECall 3 (notify VNone (VStr "A")); line banner_A;
        ECall 2 do_c; line "Component 2 does C.";
        ECall 3 (notify (VRef 2) (VStr "C"))]) ∧
  invoke 3 (VRef 3) (notify VNone (VStr "B")) (State (heap one_graph) []) =
    (Done tt, State (heap one_graph) [ECall 3 (notify VNone (VStr "B"))]).
Proof.
  assert (attached (heap one_graph) 3 1 2) as G by (by vm_compute).
  split; [exact G|].
  destruct (notify_dispatch_table (heap one_graph) 3 1 2 0 [] VNone G)
    as (HA & _ & HO).
  split; [exact HA|]. apply HO; discriminate.
Defined.

(** C3: [do_d] on component 2 of an attached graph produces exactly four
    lines of output, in this order: component 2's line for D, the
    mediator's banner for D, component 1's line for B, component 2's line
    for C.  The trace shows why nothing follows: the notifications "B" and
    "C" are entered and cause no further entry. *)
Theorem do_d_four_effects h m c1 c2 n lg :
  attached h m c1 c2 →
  ∃ t,
    invoke (4 + n) (VRef c2) do_d (State h lg) = (Done tt, State h (lg ++ t)) ∧
    t = [ECall c2 do_d; line "Component 2 does D.";
         ECall m (notify (VRef c2) (VStr "D")); line banner_D;
         ECall c1 do_b; line "Component 1 does B.";
         ECall m (notify (VRef c1) (VStr "B"));
         ECall c2 do_c; line "Component 2 does C.";
         ECall m (notify (VRef c2) (VStr "C"))] ∧
    output t = ["Component 2 does D." +:+ newline;
                banner_D +:+ newline;
                "Component 1 does B." +:+ newline;
                "Component 2 does C." +:+ newline].
Proof.
  intros G. eexists. split; [apply (run_do_d h m c1 c2 G)|]. by split.
Qed.

Lemma do_d_four_effects_witness :
  attached (heap one_graph) 3 1 2 ∧
  ∃ t, invoke 4 (VRef 2) do_d (State (heap one_graph) []) =
         (Done tt, State (heap one_graph) t) ∧
       output t = ["Component 2 does D." +:+ newline;
                   banner_D +:+ newline;
                   "Component 1 does B." +:+ newline;
                   "Component 2 does C." +:+ newline].
Proof.
  assert (attached (heap one_graph) 3 1 2) as G by (by vm_compute).
  split; [exact G|].
  destruct (do_d_four_effects (heap one_graph) 3 1 2 0 [] G) as (t & R & _ & O).
  exists t. by split.
Defined.

(** C4: [do_a] on component 1 of an attached graph produces exactly three
    lines of output, in this order: component 1's line for A, the
    mediator's banner for A, component 2's line for C; the notification
    "C" is entered and causes nothing. *)
Theorem do_a_three_effects h m c1 c2 n lg :
  attached h m c1 c2 →
  ∃ t,
    invoke (4 + n) (VRef c1) do_a (State h lg) = (Done tt, State h (lg ++ t)) ∧
    t = [ECall c1 do_a; line "Component 1 does A.";
         ECall m (notify (VRef c1) (VStr "A")); line banner_A;
         ECall c2 do_c; line "Component 2 does C.";
         ECall m (notify (VRef c2) (VStr "C"))] ∧
    output t = ["Component 1 does A." +:+ newline;
                banner_A +:+ newline;
                "Component 2 does C." +:+ newline].
Proof.
  intros G. eexists. split; [apply (run_do_a h m c1 c2 G)|]. by split.
Qed.

Lemma do_a_three_effects_witness :
  attached (heap one_graph) 3 1 2 ∧
  ∃ t, invoke 4 (VRef 1) do_a (State (heap one_graph) []) =
         (Done tt, State (heap one_graph) t) ∧
       output t = ["Component 1 does A." +:+ newline;
                   banner_A +:+ newline;
                   "Component 2 does C." +:+ newline].
Proof.
  assert (attached (heap one_graph) 3 1 2) as G by (by vm_compute).
  split; [exact G|].
  destruct (do_a_three_effects (heap one_graph) 3 1 2 0 [] G) as (t & R & _ & O).
  exists t. by split.
Defined.

(** ** The four component actions *)

Inductive action := action_A | action_B | action_C | action_D.

(** The call that performs an action, the class that provides it, the
    line it prints and the label it reports. *)
Definition call_of (a : action) : msg :=
  match a with
  | action_A => do_a | action_B => do_b | action_C => do_c | action_D => do_d
  end.

Definition owner (a : action) : cls :=
  match a with
  | action_A | action_B => Component1
  | action_C | action_D => Component2
  end.

Definition effect (a : action) : string :=
  match a with
  | action_A => "Component 1 does A."
  | action_B => "Component 1 does B."
  | action_C => "Component 2 does C."
  | action_D => "Component 2 does D."
  end.

Definition label (a : action) : string :=
  match a with
  | action_A => "A" | action_B => "B" | action_C => "C" | action_D => "D"
  end.

(** An action up to the point where it hands over to its mediator. *)
Lemma action_until_notify call h lg c d a v :
  h !! c = Some (Obj (owner a) d) → unshadowed h c →
  d !! "_mediator" = Some v →
  dispatch call (VRef c) (call_of a) (State h lg) =
  call v (notify (VRef c) (VStr (label a)))
    (State h (lg ++ [ECall c (call_of a); line (effect a)])).
Proof.
  intros E U F.
  destruct a; cbn [owner call_of effect label] in *; enter E U;
    unfold Component1_do_a, Component1_do_b, Component2_do_c, Component2_do_d,
      bind;
    rewrite print_run, (get_mediator_component _ _ _ _ _ _ E eq_refl F);
    by rewrite <- (assoc_L (++)).
Qed.

(** Entering [notify] on an instance of a mediator class: the entry is
    recorded, then the reaction runs. *)
Lemma notify_entered n h m sender event :
  class_of h m = Some Mediator ∨ class_of h m = Some ConcreteMediator →
  unshadowed h m →
  ∃ o t, ∀ lg,
    invoke (S n) (VRef m) (notify sender event) (State h lg) =
    (o, State h (lg ++ ECall m (notify sender event) :: t)).
Proof.
  intros Hc U.
  assert (∃ c d body, h !! m = Some (Obj c d) ∧
            lookup_method (invoke n) c (notify sender event) = Some body)
    as (c & d & body & E & L).
  { destruct Hc as [[d E]%class_of_Some|[d E]%class_of_Some];
      by eexists _, d, _. }
  destruct (framed_body (invoke n) c _ body (VRef m)
              (framed_invoke n) L h) as (o & t & R).
  exists o, t. intros lg. change (invoke (S n)) with (dispatch (invoke n)).
  erewrite (dispatch_method _ _ _ _ _ _ _ _ E U L).
  by rewrite R, <- (assoc_L (++)).
Qed.

(** C2: on a component with a mediator attached, each of the four actions
    first writes the component's own line and only then enters the
    mediator's [notify]; everything the reaction does ([rest]) comes after
    both. *)
Theorem effect_before_notification h lg n c (a : action) med :
  class_of h c = Some (owner a) → unshadowed h c →
  field h c "_mediator" = Some (VRef med) →
  class_of h med = Some Mediator ∨ class_of h med = Some ConcreteMediator →
  unshadowed h med →
  ∃ o rest,
    o ≠ OutOfFuel ∧
    invoke (4 + n) (VRef c) (call_of a) (State h lg) =
    (o, State h (lg ++ [ECall c (call_of a); line (effect a);
                        ECall med (notify (VRef c) (VStr (label a)))] ++ rest)).
Proof.
  intros [d E]%class_of_Some U F Cm Um.
  rewrite (field_at _ _ _ _ _ E) in F.
  destruct (notify_entered (2 + n) h med (VRef c) (VStr (label a)) Cm Um)
    as (o & rest & R).
  exists o, rest.
  assert (invoke (4 + n) (VRef c) (call_of a) (State h lg) =
    (o, State h (lg ++ [ECall c (call_of a); line (effect a);
                        ECall med (notify (VRef c) (VStr (label a)))] ++ rest)))
    as Run.
  { change (invoke (4 + n)) with (dispatch (invoke (S (2 + n)))).
    rewrite (action_until_notify _ _ _ _ _ _ _ E U F), R.
    by rewrite <- (assoc_L (++)). }
  split; [|done].
  pose proof (invoke_total n (VRef c) (call_of a) (State h lg)) as T.
  by rewrite Run in T.
Qed.

Lemma effect_before_notification_witness :
  (class_of (heap one_graph) 2 = Some Component2 ∧
   unshadowed (heap one_graph) 2 ∧
   field (heap one_graph) 2 "_mediator" = Some (VRef 3) ∧
   class_of (heap one_graph) 3 = Some ConcreteMediator ∧
   unshadowed (heap one_graph) 3) ∧
  ∃ o rest,
    o ≠ OutOfFuel ∧
    invoke 4 (VRef 2) do_d (State (heap one_graph) []) =
    (o, State (heap one_graph)
          ([ECall 2 do_d; line "Component 2 does D.";
            ECall 3 (notify (VRef 2) (VStr "D"))] ++ rest)).
Proof.
  assert (class_of (heap one_graph) 2 = Some Component2) as H1 by (by vm_compute).
  assert (unshadowed (heap one_graph) 2) as H2 by (by vm_compute).
  assert (field (heap one_graph) 2 "_mediator" = Some (VRef 3)) as H3
    by (by vm_compute).
  assert (class_of (heap one_graph) 3 = Some ConcreteMediator) as H4
    by (by vm_compute).
  assert (unshadowed (heap one_graph) 3) as H5 by (by vm_compute).
  split; [done|].
  exact (effect_before_notification (heap one_graph) [] 0 2 action_D 3
           H1 H2 H3 (or_intror H4) H5).
Defined.

(** C6: constructing a [ConcreteMediator] on a [Component1] and a
    [Component2] that already exist allocates the mediator at a fresh
    location, stores both components in it, and makes it the mediator of
    both; no other instance changes. *)
Theorem mediator_construction_binds h lg c1 c2 :
  class_of h c1 = Some Component1 → class_of h c2 = Some Component2 →
  ∃ m h',
    new_ConcreteMediator (VRef c1) (VRef c2) (State h lg) =
      (Done (VRef m), State h' (lg ++ [ENew m ConcreteMediator])) ∧
    h !! m = None ∧
    class_of h' m = Some ConcreteMediator ∧
    field h' m "_component1" = Some (VRef c1) ∧
    field h' m "_component2" = Some (VRef c2) ∧
    class_of h' c1 = Some Component1 ∧
    class_of h' c2 = Some Component2 ∧
    (∀ lg', get_mediator (VRef c1) (State h' lg') = (Done (VRef m), State h' lg')) ∧
    (∀ lg', get_mediator (VRef c2) (State h' lg') = (Done (VRef m), State h' lg')) ∧
    (∀ l, l ≠ m → l ≠ c1 → l ≠ c2 → h' !! l = h !! l).
Proof.
  intros [d1 E1]%class_of_Some [d2 E2]%class_of_Some.
  assert (c1 ≠ c2) as H12 by congruence.
  set (m := fresh (dom h)).
  assert (h !! m = None) as Hm by apply not_elem_of_dom, is_fresh.
  assert (m ≠ c1) as Hm1 by congruence.
  assert (m ≠ c2) as Hm2 by congruence.
  exists m, (bound_heap h m c1 c2 Component1 Component2 d1 d2).
  pose proof (bound_heap_mediator h m c1 c2 Component1 Component2 d1 d2 Hm2) as Bm.
  pose proof (bound_heap_component1 h m c1 c2 Component1 Component2 d1 d2 Hm1 H12) as B1.
  pose proof (bound_heap_component2 h m c1 c2 Component1 Component2 d1 d2) as B2.
  split; [by apply new_ConcreteMediator_run|]. split; [done|].
  rewrite (class_of_at _ _ _ _ Bm), (class_of_at _ _ _ _ B1),
    (class_of_at _ _ _ _ B2), !(field_at _ _ _ _ _ Bm).
  rewrite lookup_insert_eq, lookup_insert_ne, lookup_insert_eq by done.
  repeat split.
  - intros lg'. apply (get_mediator_component _ _ _ _ _ _ B1 eq_refl).
    apply lookup_insert_eq.
  - intros lg'. apply (get_mediator_component _ _ _ _ _ _ B2 eq_refl).
    apply lookup_insert_eq.
  - intros. by apply bound_heap_other.
Qed.

Lemma mediator_construction_binds_witness :
  (class_of (heap two_components) 1 = Some Component1 ∧
   class_of (heap two_components) 2 = Some Component2) ∧
  ∃ m h',
    new_ConcreteMediator (VRef 1) (VRef 2) (State (heap two_components) []) =
      (Done (VRef m), State h' ([] ++ [ENew m ConcreteMediator])) ∧
    heap two_components !! m = None ∧
    class_of h' m = Some ConcreteMediator ∧
    field h' m "_component1" = Some (VRef 1) ∧
    field h' m "_component2" = Some (VRef 2) ∧
    class_of h' 1 = Some Component1 ∧
    class_of h' 2 = Some Component2 ∧
    (∀ lg', get_mediator (VRef 1) (State h' lg') = (Done (VRef m), State h' lg')) ∧
    (∀ lg', get_mediator (VRef 2) (State h' lg') = (Done (VRef m), State h' lg')) ∧
    (∀ l, l ≠ m → l ≠ 1%positive → l ≠ 2%positive →
          h' !! l = heap two_components !! l).
Proof.
  assert (class_of (heap two_components) 1 = Some Component1) as H1
    by (by vm_compute).
  assert (class_of (heap two_components) 2 = Some Component2) as H2
    by (by vm_compute).
  split; [done|].
  exact (mediator_construction_binds (heap two_components) [] 1 2 H1 H2).
Defined.

(** ** A component with no mediator *)

(** The failure the interpreter raises when an attribute is looked up on
    [None]: the dereference of a null reference, under no name of the
    module's own. *)
Definition null_dereference (e : exn) : Prop :=
  ∃ attr, e = AttributeError "NoneType" attr.

(** C5 as stated fails: [do_a] on a [Component1] created with no mediator
    does not raise a dedicated error; after the component's own line, the
    lookup of [notify] on [None] fails as any attribute lookup on [None]
    does. *)
Lemma unattached_do_a_is_null_dereference :
  field (heap two_components) 1 "_mediator" = Some VNone ∧
  ¬ ∃ e σ', invoke 4 (VRef 1) do_a two_components = (Raise e, σ') ∧
            ¬ null_dereference e.
Proof.
  split; [by vm_compute|].
  intros (e & σ' & R & Hn). apply Hn. exists "notify".
  assert (invoke 4 (VRef 1) do_a two_components =
          (Raise (AttributeError "NoneType" "notify"),
           State (heap two_components)
             (log two_components ++ [ECall 1 do_a; line "Component 1 does A."])))
    as R' by (by vm_compute).
  congruence.
Qed.

(** C5, amended: on a component whose mediator is [None], each of the
    four actions writes the component's own line and then fails with the
    interpreter's [AttributeError] for [notify] on [None], which reaches
    the caller; the heap is unchanged and nothing else is written. *)
Theorem unattached_action_raises h lg n c (a : action) :
  class_of h c = Some (owner a) → unshadowed h c →
  field h c "_mediator" = Some VNone →
  invoke (2 + n) (VRef c) (call_of a) (State h lg) =
  (Raise (AttributeError "NoneType" "notify"),
   State h (lg ++ [ECall c (call_of a); line (effect a)])).
Proof.
  intros [d E]%class_of_Some U F. rewrite (field_at _ _ _ _ _ E) in F.
  change (invoke (2 + n)) with (dispatch (invoke (S n))).
  by rewrite (action_until_notify _ _ _ _ _ _ _ E U F).
Qed.

Lemma unattached_action_raises_witness :
  (class_of (heap two_components) 2 = Some Component2 ∧
   unshadowed (heap two_components) 2 ∧
   field (heap two_components) 2 "_mediator" = Some VNone) ∧
  invoke 2 (VRef 2) do_c (State (heap two_components) []) =
  (Raise (AttributeError "NoneType" "notify"),
   State (heap two_components) [ECall 2 do_c; line "Component 2 does C."]).
Proof.
  assert (class_of (heap two_components) 2 = Some Component2) as H1
    by (by vm_compute).
  assert (unshadowed (heap two_components) 2) as H2 by (by vm_compute).
  assert (field (heap two_components) 2 "_mediator" = Some VNone) as H3
    by (by vm_compute).
  split; [done|].
  exact (unattached_action_raises (heap two_components) [] 0 2 action_C H1 H2 H3).
Defined.

(** ** Two graphs in one heap *)

(** The component of the graph that performs an action. *)
Definition performer (a : action) (c1 c2 : loc) : loc :=
  match a with
  | action_A | action_B => c1
  | action_C | action_D => c2
  end.

Ltac trace_members :=
  unfold line; intros Hin;
  repeat (destruct Hin as [Hin|Hin]; [simplify_eq; by eauto|]);
  done.

Lemma run_action h m c1 c2 n lg (a : action) :
  attached h m c1 c2 →
  ∃ t, invoke (4 + n) (VRef (performer a c1 c2)) (call_of a) (State h lg) =
         (Done tt, State h (lg ++ t)) ∧
       ∀ l c, ECall l c ∈ t → l = m ∨ l = c1 ∨ l = c2.
Proof.
  intros G. destruct a; simpl.
  - exists (trace_do_a m c1 c2). split; [apply (run_do_a h m c1 c2 G)|].
    intros l c. unfold trace_do_a, trace_notify, trace_do_c; simpl.
    rewrite !elem_of_cons, elem_of_nil. trace_members.
  - exists (trace_do_b m c1). split; [apply (run_do_b h m c1 c2 G (2 + n))|].
    intros l c. unfold trace_do_b.
    rewrite !elem_of_cons, elem_of_nil. trace_members.
  - exists (trace_do_c m c2). split; [apply (run_do_c h m c1 c2 G (2 + n))|].
    intros l c. unfold trace_do_c.
    rewrite !elem_of_cons, elem_of_nil. trace_members.
  - exists (trace_do_d m c1 c2). split; [apply (run_do_d h m c1 c2 G)|].
    intros l c. unfold trace_do_d, trace_notify, trace_do_b, trace_do_c; simpl.
    rewrite !elem_of_cons, elem_of_nil. trace_members.
Qed.

(** C7: with two graphs in one heap, on six distinct instances, an action
    on a component of the first enters methods of the first graph's
    instances only, never of the second's, and leaves the whole heap, the
    second graph included, as it was. *)
Theorem graphs_do_not_interfere h lg n m c1 c2 m' c1' c2' (a : action) :
  attached h m c1 c2 → attached h m' c1' c2' →
  NoDup [m; c1; c2; m'; c1'; c2'] →
  ∃ t,
    invoke (4 + n) (VRef (performer a c1 c2)) (call_of a) (State h lg) =
      (Done tt, State h (lg ++ t)) ∧
    ∀ l c, ECall l c ∈ t → l ≠ m' ∧ l ≠ c1' ∧ l ≠ c2'.
Proof.
  intros G _ ND.
  destruct (run_action h m c1 c2 n lg a G) as (t & R & Ht).
  exists t. split; [done|]. intros l c Hin.
  apply NoDup_cons in ND as [Nm ND].
  apply NoDup_cons in ND as [N1 ND].
  apply NoDup_cons in ND as [N2 _].
  rewrite !not_elem_of_cons in Nm. rewrite !not_elem_of_cons in N1.
  rewrite !not_elem_of_cons in N2.
  destruct Nm as (_ & _ & ? & ? & ? & _), N1 as (_ & ? & ? & ? & _),
    N2 as (? & ? & ? & _).
  destruct (Ht l c Hin) as [-> | [-> | ->]]; done.
Qed.

Lemma graphs_do_not_interfere_witness :
  (attached (heap two_graphs) 3 1 2 ∧ attached (heap two_graphs) 6 4 5 ∧
   NoDup [3; 1; 2; 6; 4; 5]%positive) ∧
  ∃ t,
    invoke 4 (VRef 2) do_d (State (heap two_graphs) []) =
      (Done tt, State (heap two_graphs) ([] ++ t)) ∧
    ∀ l c, ECall l c ∈ t → l ≠ 6%positive ∧ l ≠ 4%positive ∧ l ≠ 5%positive.
Proof.
  assert (attached (heap two_graphs) 3 1 2) as G1 by (by vm_compute).
  assert (attached (heap two_graphs) 6 4 5) as G2 by (by vm_compute).
  assert (NoDup [3; 1; 2; 6; 4; 5]%positive) as ND
    by compute_done.
  split; [done|].
  exact (graphs_do_not_interfere (heap two_graphs) [] 0 3 1 2 6 4 5 action_D
           G1 G2 ND).
Defined.

(** ** The sender *)

(** C8: what a call of [notify] does is the same for every sender: the
    outcome and the reaction [t] (the lines written and the component
    actions entered) depend on the receiver, the event and the heap only;
    the sender appears in the record of the entry alone. *)
Theorem notify_ignores_sender fuel recv event σ :
  ∃ o (entered : option loc) t, ∀ sender,
    invoke fuel recv (notify sender event) σ =
    (o, State (heap σ)
          (log σ ++
           match entered with
           | Some l => [ECall l (notify sender event)]
           | None => []
           end ++ t)).
Proof.
  destruct σ as [h lg]. simpl.
  assert (∀ o, ∃ (o' : outcome ()) (entered : option loc) (t : list ev),
    ∀ sender : val, (o, State h lg) =
      (o', State h (lg ++ match entered with
                          | Some l => [ECall l (notify sender event)]
                          | None => []
                          end ++ t))) as Hstop.
  { intros o. exists o, None, []. intros _. simpl. by rewrite (right_id_L [] (++)). }
  destruct fuel as [|n]; [apply (Hstop OutOfFuel)|].
  change (invoke (S n)) with (dispatch (invoke n)).
  destruct recv as [| |l].
  { apply (Hstop (Raise (AttributeError "NoneType" "notify"))). }
  { apply (Hstop (Raise (AttributeError "str" "notify"))). }
  unfold dispatch, bind, deref; simpl.
  destruct (h !! l) as [[c d]|]; [simpl|apply (Hstop Stuck)].
  destruct (d !! "notify") as [v|].
  - destruct (framed_type_name v h) as (o & t & R). rewrite (R lg).
    exists (match o with
            | Done s => Raise (TypeError_not_callable s)
            | Raise e => Raise e
            | Stuck => Stuck
            | OutOfFuel => OutOfFuel
            end), None, t.
    intros _. by destruct o.
  - destruct c; simpl;
      try apply (Hstop (Raise (AttributeError _ "notify"))).
    + by exists (Done tt), (Some l), [].
    + destruct (framed_body (invoke n) ConcreteMediator (notify VNone event) _
                  (VRef l) (framed_invoke n) eq_refl h) as (o & t & R).
      exists o, (Some l), t. intros sender.
      change (ConcreteMediator_notify (invoke n) (VRef l) sender event)
        with (ConcreteMediator_notify (invoke n) (VRef l) VNone event).
      by rewrite R, <- (assoc_L (++)).
Qed.

(** ** The script *)

(** The trace of the demonstration: the three constructions, then the two
    client calls with what they cause. *)
Definition demo_trace : list ev :=
  [ENew 1 Component1; ENew 2 Component2; ENew 3 ConcreteMediator;
   line "Client triggers operation A.";
   ECall 1 do_a; line "Component 1 does A.";
   ECall 3 (notify (VRef 1) (VStr "A")); line banner_A;
   ECall 2 do_c; line "Component 2 does C.";
   ECall 3 (notify (VRef 2) (VStr "C"));
   EPrint newline;
   line "Client triggers operation D.";
   ECall 2 do_d; line "Component 2 does D.";
   ECall 3 (notify (VRef 2) (VStr "D")); line banner_D;
   ECall 1 do_b; line "Component 1 does B.";
   ECall 3 (notify (VRef 1) (VStr "B"));
   ECall 2 do_c; line "Component 2 does C.";
   ECall 3 (notify (VRef 2) (VStr "C"))].

(** C9: run as a program ([__name__] is "__main__"), whatever the command
    line, the module creates component 1, component 2 and the mediator
    bound to both, performs [do_a] on component 1, then [do_d] on
    component 2, and ends normally: exit status 0. *)
Theorem main_runs_demo_script argv n :
  run_module "__main__" argv (4 + n) empty_state =
    (Done tt, State (heap one_graph) demo_trace) ∧
  attached (heap one_graph) 3 1 2 ∧
  exit_code (run_module "__main__" argv (4 + n) empty_state) = Some 0.
Proof.
  assert (run_module "__main__" argv (4 + n) empty_state =
          (Done tt, State (heap one_graph) demo_trace)) as R
    by (vm_compute; reflexivity).
  split; [exact R|]. split; [exact one_graph_attached|].
  unfold exit_code. rewrite R. reflexivity.
Qed.
(** ** Sequences of calls *)

(** A client making calls one after the other. *)
Fixpoint run_calls (fuel : nat) (cs : list (val * msg)) : M unit :=
  match cs with
  | [] => ret tt
  | (recv, c) :: cs => invoke fuel recv c ;;; run_calls fuel cs
  end.

(** The calls the graph offers: the actions on the component that has
    them, [notify] on the mediator. *)
Definition graph_call (m c1 c2 : loc) (rc : val * msg) : Prop :=
  match rc.2 with
  | do_a | do_b => rc.1 = VRef c1
  | do_c | do_d => rc.1 = VRef c2
  | notify _ _ => rc.1 = VRef m
  end.

Lemma framed_run_calls fuel cs : framed (run_calls fuel cs).
Proof.
  induction cs as [|[recv c] cs IH]; simpl.
  - apply framed_ret.
  - apply framed_bind; [apply framed_invoke|done].
Qed.

Lemma fuelled_run_calls n cs : fuelled (run_calls (4 + n) cs).
Proof.
  induction cs as [|[recv c] cs IH]; simpl.
  - apply fuelled_ret.
  - apply fuelled_bind; [|done]. intros σ. apply (invoke_total n).
Qed.

Lemma graph_call_done h m c1 c2 n lg recv c :
  attached h m c1 c2 → graph_call m c1 c2 (recv, c) →
  ∃ t, invoke (4 + n) recv c (State h lg) = (Done tt, State h (lg ++ t)).
Proof.
  intros G Hc. unfold graph_call in Hc.
  destruct c; simpl in Hc; subst recv; eexists.
  - apply (run_notify h m c1 c2 G (S n)).
  - apply (run_do_a h m c1 c2 G n).
  - apply (run_do_b h m c1 c2 G (2 + n)).
  - apply (run_do_c h m c1 c2 G (2 + n)).
  - apply (run_do_d h m c1 c2 G n).
Qed.

(** C10: no sequence of calls changes the object graph.  On an attached
    graph, after any sequence of calls (to anything, with any arguments)
    the heap is the heap before, so every [_mediator], [_component1] and
    [_component2] is what construction made it; the sequence never runs
    out of fuel, and when it consists of the graph's own calls it runs to
    its end. *)
Theorem calls_preserve_graph h lg n m c1 c2 cs :
  attached h m c1 c2 →
  ∃ o t,
    run_calls (4 + n) cs (State h lg) = (o, State h (lg ++ t)) ∧
    o ≠ OutOfFuel ∧
    (Forall (graph_call m c1 c2) cs → o = Done tt).
Proof.
  intros G.
  destruct (framed_run_calls (4 + n) cs h) as (o & t & R).
  exists o, t. split; [done|]. split.
  - pose proof (fuelled_run_calls n cs (State h lg)) as T.
    by rewrite R in T.
  - intros Hcs. specialize (R lg). revert lg o t R.
    induction Hcs as [|[recv c] cs Hc Hcs IH]; intros lg o t R.
    + by injection R as <- _.
    + cbn [run_calls] in R. unfold bind in R.
      destruct (graph_call_done h m c1 c2 n lg recv c G Hc) as (t1 & R1).
      rewrite R1 in R.
      destruct (framed_run_calls (4 + n) cs h) as (o' & t' & R').
      rewrite R' in R. injection R as Ho _. rewrite <- Ho.
      exact (IH (lg ++ t1) o' t' (R' _)).
Qed.

Lemma calls_preserve_graph_witness :
  attached (heap one_graph) 3 1 2 ∧
  ∃ o t,
    run_calls 4 [(VRef 1, do_a); (VRef 3, notify VNone (VStr "D"));
                 (VRef 2, do_c)] (State (heap one_graph) []) =
      (o, State (heap one_graph) ([] ++ t)) ∧
    o ≠ OutOfFuel ∧
    (Forall (graph_call 3 1 2)
       [(VRef 1, do_a); (VRef 3, notify VNone (VStr "D")); (VRef 2, do_c)] →
     o = Done tt).
Proof.
  assert (attached (heap one_graph) 3 1 2) as G by (by vm_compute).
  split; [done|].
  exact (calls_preserve_graph (heap one_graph) [] 0 3 1 2
           [(VRef 1, do_a); (VRef 3, notify VNone (VStr "D")); (VRef 2, do_c)] G).
Defined.

(** * Further properties of the module *)

(** ** Fuel

    [agree c c'] : wherever [c] does not run out of fuel, [c'] does what
    [c] does. *)

Definition agree {A} (c c' : M A) : Prop :=
  ∀ σ, (c σ).1 ≠ OutOfFuel → c' σ = c σ.

Lemma agree_refl {A} (c : M A) : agree c c.
Proof. by intros σ _. Qed.

Lemma agree_bind {A B} (c c' : M A) (k k' : A → M B) :
  agree c c' → (∀ a, agree (k a) (k' a)) → agree (bind c k) (bind c' k').
Proof.
  intros Hc Hk σ. unfold bind. specialize (Hc σ).
  destruct (c σ) as [[a|e| |] σ1] eqn:E; simpl in *; intros Hne;
    rewrite Hc by done; try done.
  by apply Hk.
Qed.

Ltac agree_cases :=
  repeat match goal with
  | |- agree (match ?x with _ => _ end) (match ?x with _ => _ end) =>
      destruct x eqn:?
  | |- agree (if ?b then _ else _) (if ?b then _ else _) => destruct b eqn:?
  | |- ∀ _, _ => intro
  | |- agree (bind _ _) (bind _ _) => apply agree_bind
  | |- agree ?c ?c => apply agree_refl
  | H : ∀ r c, agree (?call r c) (?call' r c) |- agree (?call _ _) (?call' _ _) =>
      apply H
  end.

Lemma agree_dispatch call call' recv c :
  (∀ r c', agree (call r c') (call' r c')) →
  agree (dispatch call recv c) (dispatch call' recv c).
Proof.
  intros Hcall. unfold dispatch.
  destruct recv as [| |l]; [apply agree_refl..|].
  apply agree_bind; [apply agree_refl|]. intros o.
  destruct (o_dict o !! method_name c); [apply agree_refl|].
  destruct c, (o_class o); simpl; try apply agree_refl;
    (apply agree_bind; [apply agree_refl|]); intros _;
    unfold Mediator_notify, ConcreteMediator_notify, Component1_do_a,
      Component1_do_b, Component2_do_c, Component2_do_d; agree_cases.
Qed.

Lemma agree_invoke n recv c : agree (invoke n recv c) (invoke (S n) recv c).
Proof.
  revert recv c. induction n as [|n IH]; intros recv c.
  - by intros σ Hne.
  - change (agree (dispatch (invoke n) recv c) (dispatch (invoke (S n)) recv c)).
    by apply agree_dispatch.
Qed.

(** X1: every call of the module returns within four nested method
    entries, on any heap whatever the instances refer to: with fuel 4 no
    call runs out of fuel, and any further fuel gives the same result. *)
Theorem invoke_fuel_independent n recv c σ :
  (invoke 4 recv c σ).1 ≠ OutOfFuel ∧
  invoke (4 + n) recv c σ = invoke 4 recv c σ.
Proof.
  split; [apply (invoke_total 0)|].
  induction n as [|n IH]; [done|].
  rewrite <- IH.
  change (invoke (S (4 + n)) recv c σ = invoke (4 + n) recv c σ).
  apply agree_invoke. apply invoke_total.
Qed.

(** X2: no method call writes to any instance.  Whatever the receiver,
    the call, the fuel and the heap, the heap after the call is the heap
    before it, the trace is only extended, and both the outcome and the
    extension are the same from any earlier trace. *)
Theorem invoke_never_mutates fuel recv c h :
  ∃ o t, ∀ lg, invoke fuel recv c (State h lg) = (o, State h (lg ++ t)).
Proof. apply framed_invoke. Qed.

(** ** Components and plain mediators *)

(** A base [Mediator] at 1 and a [Component1] created with it as its
    mediator, at 2. *)
Definition plain_mediator_state : state :=
  ((m <- new Mediator ;; new_component Component1 m) empty_state).2.

(** X3: a component whose mediator is an instance of the base [Mediator]
    is never answered: each action writes the component's line, enters
    [Mediator.notify], and that is all. *)
Theorem base_mediator_never_reacts h lg n c (a : action) med :
  class_of h c = Some (owner a) → unshadowed h c →
  field h c "_mediator" = Some (VRef med) →
  class_of h med = Some Mediator → unshadowed h med →
  invoke (2 + n) (VRef c) (call_of a) (State h lg) =
  (Done tt,
   State h (lg ++ [ECall c (call_of a); line (effect a);
                   ECall med (notify (VRef c) (VStr (label a)))])).
Proof.
  intros [d E]%class_of_Some U F Cm Um. rewrite (field_at _ _ _ _ _ E) in F.
  change (invoke (2 + n)) with (dispatch (invoke (S n))).
  rewrite (action_until_notify _ _ _ _ _ _ _ E U F).
  rewrite notify_base by done. by rewrite <- (assoc_L (++)).
Qed.

Lemma base_mediator_never_reacts_witness :
  (class_of (heap plain_mediator_state) 2 = Some Component1 ∧
   unshadowed (heap plain_mediator_state) 2 ∧
   field (heap plain_mediator_state) 2 "_mediator" = Some (VRef 1) ∧
   class_of (heap plain_mediator_state) 1 = Some Mediator ∧
   unshadowed (heap plain_mediator_state) 1) ∧
  invoke 2 (VRef 2) do_a (State (heap plain_mediator_state) []) =
  (Done tt,
   State (heap plain_mediator_state)
     [ECall 2 do_a; line "Component 1 does A.";
      ECall 1 (notify (VRef 2) (VStr "A"))]).
Proof.
  assert (class_of (heap plain_mediator_state) 2 = Some Component1) as H1
    by (vm_compute; reflexivity).
  assert (unshadowed (heap plain_mediator_state) 2) as H2
    by (vm_compute; repeat split).
  assert (field (heap plain_mediator_state) 2 "_mediator" = Some (VRef 1)) as H3
    by (vm_compute; reflexivity).
  assert (class_of (heap plain_mediator_state) 1 = Some Mediator) as H4
    by (vm_compute; reflexivity).
  assert (unshadowed (heap plain_mediator_state) 1) as H5
    by (vm_compute; repeat split).
  split; [done|].
  exact (base_mediator_never_reacts (heap plain_mediator_state) [] 0 2
           action_A 1 H1 H2 H3 H4 H5).
Defined.

(** X4: on an attached graph the actions B and C are not reacted to:
    [do_b] on component 1 and [do_c] on component 2 each write their one
    line, notify the mediator, and nothing follows. *)
Theorem quiet_actions h m c1 c2 n lg :
  attached h m c1 c2 →
  invoke (2 + n) (VRef c1) do_b (State h lg) =
    (Done tt,
     State h (lg ++ [ECall c1 do_b; line "Component 1 does B.";
                     ECall m (notify (VRef c1) (VStr "B"))])) ∧
  invoke (2 + n) (VRef c2) do_c (State h lg) =
    (Done tt,
     State h (lg ++ [ECall c2 do_c; line "Component 2 does C.";
                     ECall m (notify (VRef c2) (VStr "C"))])).
Proof.
  intros G. split.
  - apply (run_do_b h m c1 c2 G n).
  - apply (run_do_c h m c1 c2 G n).
Qed.

Lemma quiet_actions_witness :
  attached (heap one_graph) 3 1 2 ∧
  invoke 2 (VRef 1) do_b (State (heap one_graph) []) =
    (Done tt,
     State (heap one_graph)
       [ECall 1 do_b; line "Component 1 does B.";
        ECall 3 (notify (VRef 1) (VStr "B"))]) ∧
  invoke 2 (VRef 2) do_c (State (heap one_graph) []) =
    (Done tt,
     State (heap one_graph)
       [ECall 2 do_c; line "Component 2 does C.";
        ECall 3 (notify (VRef 2) (VStr "C"))]).
Proof.
  assert (attached (heap one_graph) 3 1 2) as G by (by vm_compute).
  split; [done|].
  exact (quiet_actions (heap one_graph) 3 1 2 0 [] G).
Defined.

Lemma new_component_run c v h lg :
  let l := fresh (dom h) in
  new_component c v (State h lg) =
  (Done (VRef l),
   State (<[l := Obj c (<["_mediator" := v]> ∅)]> h) (lg ++ [ENew l c])).
Proof.
  intros l. unfold new_component, BaseComponent_init, bind.
  rewrite new_run. fold l. cbv beta iota.
  erewrite store_field_run by apply lookup_insert_eq.
  by rewrite insert_insert_eq.
Qed.

(** X5: creating a component, with a mediator or with the default [None],
    allocates a new instance of the class whose [mediator] property reads
    back the argument, hides none of its methods, and leaves every
    existing instance as it was. *)
Theorem component_construction h lg c v :
  is_component c = true →
  ∃ l h',
    new_component c v (State h lg) =
      (Done (VRef l), State h' (lg ++ [ENew l c])) ∧
    h !! l = None ∧
    class_of h' l = Some c ∧
    unshadowed h' l ∧
    (∀ lg', get_mediator (VRef l) (State h' lg') = (Done v, State h' lg')) ∧
    (∀ l', l' ≠ l → h' !! l' = h !! l').
Proof.
  intros C. set (l := fresh (dom h)).
  assert (h !! l = None) as Hl by apply not_elem_of_dom, is_fresh.
  exists l, (<[l := Obj c (<["_mediator" := v]> ∅)]> h).
  assert ((<[l := Obj c (<["_mediator" := v]> ∅)]> h) !! l =
          Some (Obj c (<["_mediator" := v]> ∅))) as E by apply lookup_insert_eq.
  split; [apply new_component_run|]. split; [done|].
  split; [by rewrite (class_of_at _ _ _ _ E)|]. split; [|split].
  - unfold unshadowed. rewrite !(field_at _ _ _ _ _ E).
    rewrite !lookup_insert_ne by done. by rewrite lookup_empty.
  - intros lg'. apply (get_mediator_component _ _ _ _ _ _ E C).
    apply lookup_insert_eq.
  - intros l' Hne. by rewrite lookup_insert_ne.
Qed.

Lemma component_construction_witness :
  is_component Component2 = true ∧
  ∃ l h',
    new_component Component2 (VRef 3) (State (heap one_graph) []) =
      (Done (VRef l), State h' ([] ++ [ENew l Component2])) ∧
    heap one_graph !! l = None ∧
    class_of h' l = Some Component2 ∧
    unshadowed h' l ∧
    (∀ lg', get_mediator (VRef l) (State h' lg') = (Done (VRef 3), State h' lg')) ∧
    (∀ l', l' ≠ l → h' !! l' = heap one_graph !! l').
Proof.
  split; [reflexivity|].
  exact (component_construction (heap one_graph) [] Component2 (VRef 3) eq_refl).
Defined.

(** X6: the [mediator] setter and getter round-trip on a component:
    after [c.mediator = v] the property reads [v]; the class of the
    component, its other attributes and all other instances are
    unchanged; and of two assignments in a row the second alone counts. *)
Theorem mediator_set_get h lg l c v :
  class_of h l = Some c → is_component c = true →
  ∃ h',
    set_mediator (VRef l) v (State h lg) = (Done tt, State h' lg) ∧
    class_of h' l = Some c ∧
    (∀ lg', get_mediator (VRef l) (State h' lg') = (Done v, State h' lg')) ∧
    (∀ name, name ≠ "_mediator" → field h' l name = field h l name) ∧
    (∀ l', l' ≠ l → h' !! l' = h !! l') ∧
    (∀ v0, (set_mediator (VRef l) v0 ;;; set_mediator (VRef l) v) (State h lg) =
           (Done tt, State h' lg)).
Proof.
  intros [d E]%class_of_Some C.
  exists (<[l := Obj c (<["_mediator" := v]> d)]> h).
  assert ((<[l := Obj c (<["_mediator" := v]> d)]> h) !! l =
          Some (Obj c (<["_mediator" := v]> d))) as E' by apply lookup_insert_eq.
  split; [by apply set_mediator_component|].
  split; [by rewrite (class_of_at _ _ _ _ E')|]. split; [|split; [|split]].
  - intros lg'. apply (get_mediator_component _ _ _ _ _ _ E' C).
    apply lookup_insert_eq.
  - intros name Hne. rewrite (field_at _ _ _ _ _ E'), (field_at _ _ _ _ _ E).
    by rewrite lookup_insert_ne.
  - intros l' Hne. by rewrite lookup_insert_ne.
  - intros v0. unfold bind.
    rewrite (set_mediator_component _ _ _ _ _ v0 E C).
    erewrite set_mediator_component; [|apply lookup_insert_eq|done].
    by rewrite !insert_insert_eq.
Qed.

Lemma mediator_set_get_witness :
  (class_of (heap one_graph) 1 = Some Component1 ∧
   is_component Component1 = true) ∧
  ∃ h',
    set_mediator (VRef 1) VNone (State (heap one_graph) []) =
      (Done tt, State h' []) ∧
    class_of h' 1 = Some Component1 ∧
    (∀ lg', get_mediator (VRef 1) (State h' lg') = (Done VNone, State h' lg')) ∧
    (∀ name, name ≠ "_mediator" → field h' 1 name = field (heap one_graph) 1 name) ∧
    (∀ l', l' ≠ 1%positive → h' !! l' = heap one_graph !! l') ∧
    (∀ v0, (set_mediator (VRef 1) v0 ;;; set_mediator (VRef 1) VNone)
             (State (heap one_graph) []) = (Done tt, State h' [])).
Proof.
  assert (class_of (heap one_graph) 1 = Some Component1) as H1
    by (vm_compute; reflexivity).
  split; [done|].
  exact (mediator_set_get (heap one_graph) [] 1 Component1 VNone H1 eq_refl).
Defined.

(** ** Construction on top of a graph, and construction that fails *)

Lemma dispatch_missing call h lg l c d (m : msg) :
  h !! l = Some (Obj c d) → unshadowed h l →
  lookup_method call c m = None →
  dispatch call (VRef l) m (State h lg) =
  (Raise (AttributeError (class_name c) (method_name m)), State h lg).
Proof.
  intros E U L. unfold dispatch, bind, deref; simpl. rewrite E; simpl.
  by rewrite (unshadowed_at h l c d m E U), L.
Qed.

Lemma ConcreteMediator_notify_A call self sender :
  ConcreteMediator_notify call self sender (VStr "A") =
  (print banner_A ;;; c2 <- load_field self "_component2" ;; call c2 do_c).
Proof. done. Qed.

(** X7: a second [ConcreteMediator] built on the components of an attached
    graph takes the graph over: both components now have the new mediator,
    the old one keeps its references but is no longer notified, and
    [do_a] on component 1 is answered by the new mediator. *)
Theorem rebinding_replaces_mediator h lg m1 c1 c2 :
  attached h m1 c1 c2 →
  ∃ m2 h',
    new_ConcreteMediator (VRef c1) (VRef c2) (State h lg) =
      (Done (VRef m2), State h' (lg ++ [ENew m2 ConcreteMediator])) ∧
    m2 ≠ m1 ∧
    attached h' m2 c1 c2 ∧
    h' !! m1 = h !! m1 ∧
    ∀ n lg',
      invoke (4 + n) (VRef c1) do_a (State h' lg') =
      (Done tt,
       State h' (lg' ++ [ECall c1 do_a; line "Component 1 does A.";
                         ECall m2 (notify (VRef c1) (VStr "A")); line banner_A;
                         ECall c2 do_c; line "Component 2 does C.";
                         ECall m2 (notify (VRef c2) (VStr "C"))])).
Proof.
  intros ((Cm & _) & (C1 & _ & U1) & (C2 & _ & U2)).
  destruct (new_ConcreteMediator_attached h lg c1 c2 C1 C2 U1 U2)
    as (m2 & h' & R & Hfresh & G' & Hother).
  destruct (class_of_Some _ _ _ Cm) as [dm Em].
  destruct (class_of_Some _ _ _ C1) as [d1 E1].
  destruct (class_of_Some _ _ _ C2) as [d2 E2].
  exists m2, h'. split; [done|].
  assert (m2 ≠ m1) as Hne by congruence.
  split; [done|]. split; [done|]. split.
  - apply Hother; congruence.
  - intros n lg'. apply (run_do_a h' m2 c1 c2 G' n).
Qed.

Lemma rebinding_replaces_mediator_witness :
  attached (heap one_graph) 3 1 2 ∧
  ∃ m2 h',
    new_ConcreteMediator (VRef 1) (VRef 2) (State (heap one_graph) []) =
      (Done (VRef m2), State h' ([] ++ [ENew m2 ConcreteMediator])) ∧
    m2 ≠ 3%positive ∧
    attached h' m2 1 2 ∧
    h' !! 3%positive = heap one_graph !! 3%positive ∧
    ∀ n lg',
      invoke (4 + n) (VRef 1) do_a (State h' lg') =
      (Done tt,
       State h' (lg' ++ [ECall 1 do_a; line "Component 1 does A.";
                         ECall m2 (notify (VRef 1) (VStr "A")); line banner_A;
                         ECall 2 do_c; line "Component 2 does C.";
                         ECall m2 (notify (VRef 2) (VStr "C"))])).
Proof.
  assert (attached (heap one_graph) 3 1 2) as G by (by vm_compute).
  split; [done|].
  exact (rebinding_replaces_mediator (heap one_graph) [] 3 1 2 G).
Defined.

(** X8: [ConcreteMediator(None, x)] fails on its second statement, with
    the interpreter's [AttributeError] for [mediator] on [None]: the
    half-built mediator, holding [None] as [_component1], is all that was
    created, and the second argument is never looked at. *)
Theorem construction_fails_on_first_None h lg component2 :
  ∃ m,
    h !! m = None ∧
    new_ConcreteMediator VNone component2 (State h lg) =
    (Raise (AttributeError "NoneType" "mediator"),
     State (<[m := Obj ConcreteMediator (<["_component1" := VNone]> ∅)]> h)
           (lg ++ [ENew m ConcreteMediator])).
Proof.
  exists (fresh (dom h)).
  split; [apply not_elem_of_dom, is_fresh|].
  unfold new_ConcreteMediator, ConcreteMediator_init, bind.
  rewrite new_run. cbv beta iota.
  erewrite store_field_run by apply lookup_insert_eq.
  erewrite load_field_at by apply lookup_insert_eq.
  by rewrite insert_insert_eq.
Qed.

(** X9: [ConcreteMediator(c1, None)] fails on its last statement, after
    component 1 has already been given the new mediator.  Component 1 is
    left bound to a mediator whose [_component2] is [None]; [do_a] on it
    then writes its line and the mediator's banner and fails when the
    mediator calls [do_c] on [None]. *)
Theorem construction_fails_on_second_None h lg c1 :
  class_of h c1 = Some Component1 → unshadowed h c1 →
  ∃ m h',
    new_ConcreteMediator (VRef c1) VNone (State h lg) =
      (Raise (AttributeError "NoneType" "mediator"),
       State h' (lg ++ [ENew m ConcreteMediator])) ∧
    h !! m = None ∧
    (∀ lg', get_mediator (VRef c1) (State h' lg') =
            (Done (VRef m), State h' lg')) ∧
    field h' m "_component1" = Some (VRef c1) ∧
    field h' m "_component2" = Some VNone ∧
    ∀ n lg',
      invoke (3 + n) (VRef c1) do_a (State h' lg') =
      (Raise (AttributeError "NoneType" "do_c"),
       State h' (lg' ++ [ECall c1 do_a; line "Component 1 does A.";
                         ECall m (notify (VRef c1) (VStr "A"));
                         line banner_A])).
Proof.
  intros [d1 E1]%class_of_Some U1.
  set (m := fresh (dom h)).
  assert (h !! m = None) as Hm by apply not_elem_of_dom, is_fresh.
  assert (m ≠ c1) as Hm1 by congruence.
  set (dm := <["_component2" := VNone]> (<["_component1" := VRef c1]> ∅)
             : gmap string val).
  set (h' := <[m := Obj ConcreteMediator dm]>
               (<[c1 := Obj Component1 (<["_mediator" := VRef m]> d1)]>
                  (<[m := Obj ConcreteMediator (<["_component1" := VRef c1]> ∅)]>
                     (<[m := Obj ConcreteMediator ∅]> h)))).
  assert (h' !! m = Some (Obj ConcreteMediator dm)) as Em
    by apply lookup_insert_eq.
  assert (h' !! c1 = Some (Obj Component1 (<["_mediator" := VRef m]> d1))) as E1'.
  { unfold h'. rewrite lookup_insert_ne by done. apply lookup_insert_eq. }
  assert (unshadowed h' m) as Um.
  { unfold unshadowed. rewrite !(field_at _ _ _ _ _ Em). unfold dm.
    rewrite !lookup_insert_ne by done. by rewrite lookup_empty. }
  assert (unshadowed h' c1) as U1'
    by (by eapply (unshadowed_set_mediator _ _ _ _ _ _ E1 E1')).
  exists m, h'. split; [|split; [done|split; [|split; [|split]]]].
  - unfold new_ConcreteMediator, ConcreteMediator_init, bind.
    rewrite new_run. fold m. cbv beta iota.
    erewrite store_field_run by apply lookup_insert_eq.
    erewrite load_field_at by apply lookup_insert_eq.
    erewrite set_mediator_component;
      [|by rewrite !lookup_insert_ne by done|done].
    erewrite store_field_run
      by (rewrite lookup_insert_ne by done; apply lookup_insert_eq).
    erewrite load_field_at by apply lookup_insert_eq.
    done.
  - intros lg'. apply (get_mediator_component _ _ _ _ _ _ E1' eq_refl).
    apply lookup_insert_eq.
  - rewrite (field_at _ _ _ _ _ Em). unfold dm.
    rewrite lookup_insert_ne by done. apply lookup_insert_eq.
  - rewrite (field_at _ _ _ _ _ Em). apply lookup_insert_eq.
  - intros n lg'.
    change (invoke (3 + n)) with (dispatch (invoke (S (S n)))).
    rewrite (action_until_notify _ _ _ _ _ action_A _ E1' U1')
      by apply lookup_insert_eq.
    cbn [label call_of effect].
    change (invoke (S (S n))) with (dispatch (invoke (S n))).
    enter Em Um. cbv beta. rewrite ConcreteMediator_notify_A. unfold bind.
    rewrite print_run.
    erewrite load_field_at; [|exact Em|apply lookup_insert_eq].
    simpl. by rewrite <- !(assoc_L (++)).
Qed.

Lemma construction_fails_on_second_None_witness :
  (class_of (heap two_components) 1 = Some Component1 ∧
   unshadowed (heap two_components) 1) ∧
  ∃ m h',
    new_ConcreteMediator (VRef 1) VNone (State (heap two_components) []) =
      (Raise (AttributeError "NoneType" "mediator"),
       State h' ([] ++ [ENew m ConcreteMediator])) ∧
    heap two_components !! m = None ∧
    (∀ lg', get_mediator (VRef 1) (State h' lg') =
            (Done (VRef m), State h' lg')) ∧
    field h' m "_component1" = Some (VRef 1) ∧
    field h' m "_component2" = Some VNone ∧
    ∀ n lg',
      invoke (3 + n) (VRef 1) do_a (State h' lg') =
      (Raise (AttributeError "NoneType" "do_c"),
       State h' (lg' ++ [ECall 1 do_a; line "Component 1 does A.";
                         ECall m (notify (VRef 1) (VStr "A"));
                         line banner_A])).
Proof.
  assert (class_of (heap two_components) 1 = Some Component1) as H1
    by (vm_compute; reflexivity).
  assert (unshadowed (heap two_components) 1) as H2
    by (vm_compute; repeat split).
  split; [done|].
  exact (construction_fails_on_second_None (heap two_components) [] 1 H1 H2).
Defined.

(** X10: the constructor does not check what it is given.  With the two
    components passed in the wrong order it succeeds, and the mistake
    shows only when the mediator reacts: [do_a] on component 1 writes its
    line and the banner, then fails because the mediator calls [do_c] on
    the [Component1]. *)
Theorem swapped_components_fail_at_reaction h lg c1 c2 :
  class_of h c1 = Some Component1 → class_of h c2 = Some Component2 →
  unshadowed h c1 →
  ∃ m h',
    new_ConcreteMediator (VRef c2) (VRef c1) (State h lg) =
      (Done (VRef m), State h' (lg ++ [ENew m ConcreteMediator])) ∧
    ∀ n lg',
      invoke (3 + n) (VRef c1) do_a (State h' lg') =
      (Raise (AttributeError "Component1" "do_c"),
       State h' (lg' ++ [ECall c1 do_a; line "Component 1 does A.";
                         ECall m (notify (VRef c1) (VStr "A"));
                         line banner_A])).
Proof.
  intros [d1 E1]%class_of_Some [d2 E2]%class_of_Some U1.
  assert (c2 ≠ c1) as H21 by congruence.
  set (m := fresh (dom h)).
  assert (h !! m = None) as Hm by apply not_elem_of_dom, is_fresh.
  assert (m ≠ c1) as Hm1 by congruence.
  assert (m ≠ c2) as Hm2 by congruence.
  set (h' := bound_heap h m c2 c1 Component2 Component1 d2 d1).
  pose proof (bound_heap_mediator h m c2 c1 Component2 Component1 d2 d1 Hm1) as Em.
  pose proof (bound_heap_component2 h m c2 c1 Component2 Component1 d2 d1) as E1'.
  fold h' in Em, E1'.
  assert (unshadowed h' m) as Um.
  { unfold unshadowed. rewrite !(field_at _ _ _ _ _ Em).
    rewrite !lookup_insert_ne by done. by rewrite lookup_empty. }
  assert (unshadowed h' c1) as U1'
    by (by eapply (unshadowed_set_mediator _ _ _ _ _ _ E1 E1')).
  exists m, h'. split; [by apply new_ConcreteMediator_run|].
  intros n lg'.
  change (invoke (3 + n)) with (dispatch (invoke (S (S n)))).
  rewrite (action_until_notify _ _ _ _ _ action_A _ E1' U1')
    by apply lookup_insert_eq.
  cbn [label call_of effect].
  change (invoke (S (S n))) with (dispatch (invoke (S n))).
  enter Em Um. cbv beta. rewrite ConcreteMediator_notify_A. unfold bind.
  rewrite print_run.
  erewrite load_field_at; [|exact Em|apply lookup_insert_eq].
  change (invoke (S n)) with (dispatch (invoke n)).
  rewrite (dispatch_missing _ _ _ _ _ _ do_c E1' U1' eq_refl).
  by rewrite <- !(assoc_L (++)).
Qed.

Lemma swapped_components_fail_at_reaction_witness :
  (class_of (heap two_components) 1 = Some Component1 ∧
   class_of (heap two_components) 2 = Some Component2 ∧
   unshadowed (heap two_components) 1) ∧
  ∃ m h',
    new_ConcreteMediator (VRef 2) (VRef 1) (State (heap two_components) []) =
      (Done (VRef m), State h' ([] ++ [ENew m ConcreteMediator])) ∧
    ∀ n lg',
      invoke (3 + n) (VRef 1) do_a (State h' lg') =
      (Raise (AttributeError "Component1" "do_c"),
       State h' (lg' ++ [ECall 1 do_a; line "Component 1 does A.";
                         ECall m (notify (VRef 1) (VStr "A"));
                         line banner_A])).
Proof.
  assert (class_of (heap two_components) 1 = Some Component1) as H1
    by (vm_compute; reflexivity).
  assert (class_of (heap two_components) 2 = Some Component2) as H2
    by (vm_compute; reflexivity).
  assert (unshadowed (heap two_components) 1) as H3
    by (vm_compute; repeat split).
  split; [done|].
  exact (swapped_components_fail_at_reaction (heap two_components) [] 1 2
           H1 H2 H3).
Defined.

(** ** Detaching, and building a second graph *)

(** X11: when component 2 of an attached graph is detached
    ([c2.mediator = None]), the mediator's reaction to "A" breaks inside
    component 2: [do_a] on component 1 writes its line, the banner and
    component 2's line, and the [AttributeError] raised for [notify] on
    [None] passes through the mediator to the caller of [do_a]. *)
Theorem detached_target_fails_in_reaction h lg m c1 c2 :
  attached h m c1 c2 →
  ∃ h',
    set_mediator (VRef c2) VNone (State h lg) = (Done tt, State h' lg) ∧
    ∀ n lg',
      invoke (4 + n) (VRef c1) do_a (State h' lg') =
      (Raise (AttributeError "NoneType" "notify"),
       State h' (lg' ++ [ECall c1 do_a; line "Component 1 does A.";
                         ECall m (notify (VRef c1) (VStr "A")); line banner_A;
                         ECall c2 do_c; line "Component 2 does C."])).
Proof.
  intros ((Cm & _ & Fm2 & Um) & (C1 & F1 & U1) & (C2 & _ & U2)).
  destruct (class_of_Some _ _ _ Cm) as [dm Em].
  destruct (class_of_Some _ _ _ C1) as [d1 E1].
  destruct (class_of_Some _ _ _ C2) as [d2 E2].
  rewrite (field_at _ _ _ _ _ Em) in Fm2.
  rewrite (field_at _ _ _ _ _ E1) in F1.
  assert (c2 ≠ m) as H2m by congruence.
  assert (c2 ≠ c1) as H21 by congruence.
  set (h' := <[c2 := Obj Component2 (<["_mediator" := VNone]> d2)]> h).
  assert (h' !! c2 = Some (Obj Component2 (<["_mediator" := VNone]> d2))) as E2'
    by apply lookup_insert_eq.
  assert (h' !! m = Some (Obj ConcreteMediator dm)) as Em'
    by (unfold h'; by rewrite lookup_insert_ne).
  assert (h' !! c1 = Some (Obj Component1 d1)) as E1'
    by (unfold h'; by rewrite lookup_insert_ne).
  assert (unshadowed h' c2) as U2'
    by (by eapply (unshadowed_set_mediator _ _ _ _ _ _ E2 E2')).
  assert (unshadowed h' m) as Um'.
  { unfold unshadowed in *. by rewrite !(field_at _ _ _ _ _ Em') ,
      <- !(field_at _ _ _ _ _ Em). }
  assert (unshadowed h' c1) as U1'.
  { unfold unshadowed in *. by rewrite !(field_at _ _ _ _ _ E1'),
      <- !(field_at _ _ _ _ _ E1). }
  exists h'. split; [by apply set_mediator_component|].
  intros n lg'.
  change (invoke (4 + n)) with (dispatch (invoke (S (S (S n))))).
  rewrite (action_until_notify _ _ _ _ _ action_A _ E1' U1' F1).
  cbn [label call_of effect].
  change (invoke (S (S (S n)))) with (dispatch (invoke (S (S n)))).
  enter Em' Um'. cbv beta. rewrite ConcreteMediator_notify_A. unfold bind.
  rewrite print_run, (load_field_at _ _ _ _ _ _ _ Em' Fm2).
  change (invoke (S (S n))) with (dispatch (invoke (S n))).
  rewrite (action_until_notify _ _ _ _ _ action_C _ E2' U2')
    by apply lookup_insert_eq.
  cbn [label call_of effect].
  simpl. by rewrite <- !(assoc_L (++)).
Qed.

Lemma detached_target_fails_in_reaction_witness :
  attached (heap one_graph) 3 1 2 ∧
  ∃ h',
    set_mediator (VRef 2) VNone (State (heap one_graph) []) =
      (Done tt, State h' []) ∧
    ∀ n lg',
      invoke (4 + n) (VRef 1) do_a (State h' lg') =
      (Raise (AttributeError "NoneType" "notify"),
       State h' (lg' ++ [ECall 1 do_a; line "Component 1 does A.";
                         ECall 3 (notify (VRef 1) (VStr "A")); line banner_A;
                         ECall 2 do_c; line "Component 2 does C."])).
Proof.
  assert (attached (heap one_graph) 3 1 2) as G by (by vm_compute).
  split; [done|].
  exact (detached_target_fails_in_reaction (heap one_graph) [] 3 1 2 G).
Defined.

(** Whether a graph is attached depends on its three instances only. *)
Lemma attached_ext h h' m c1 c2 :
  h' !! m = h !! m → h' !! c1 = h !! c1 → h' !! c2 = h !! c2 →
  attached h m c1 c2 → attached h' m c1 c2.
Proof.
  intros Hm H1 H2. unfold attached, unshadowed, class_of, field.
  by rewrite Hm, H1, H2.
Qed.

(** X12: building a graph on two further components leaves an attached
    graph attached: afterwards both graphs are attached in the one heap,
    on six distinct instances. *)
Theorem second_graph_beside_first h lg m c1 c2 c1' c2' :
  attached h m c1 c2 →
  class_of h c1' = Some Component1 → class_of h c2' = Some Component2 →
  unshadowed h c1' → unshadowed h c2' →
  c1' ≠ c1 → c2' ≠ c2 →
  ∃ m' h',
    new_ConcreteMediator (VRef c1') (VRef c2') (State h lg) =
      (Done (VRef m'), State h' (lg ++ [ENew m' ConcreteMediator])) ∧
    attached h' m c1 c2 ∧
    attached h' m' c1' c2' ∧
    NoDup [m; c1; c2; m'; c1'; c2'].
Proof.
  intros G C1' C2' U1' U2' Hn1 Hn2. pose proof G as G0.
  destruct (new_ConcreteMediator_attached h lg c1' c2' C1' C2' U1' U2')
    as (m' & h' & R & Hfresh & G' & Hother).
  destruct G as ((Cm & Gm) & (C1 & G1) & (C2 & G2)).
  destruct (class_of_Some _ _ _ Cm) as [dm Em].
  destruct (class_of_Some _ _ _ C1) as [d1 E1].
  destruct (class_of_Some _ _ _ C2) as [d2 E2].
  destruct (class_of_Some _ _ _ C1') as [d1' E1'].
  destruct (class_of_Some _ _ _ C2') as [d2' E2'].
  assert (m ≠ m' ∧ c1 ≠ m' ∧ c2 ≠ m' ∧ m' ≠ c1' ∧ m' ≠ c2')
    as (? & ? & ? & ? & ?) by (repeat split; congruence).
  assert (m ≠ c1 ∧ m ≠ c2 ∧ m ≠ c1' ∧ m ≠ c2' ∧ c1 ≠ c2 ∧ c1 ≠ c2' ∧
          c2 ≠ c1' ∧ c1' ≠ c2')
    as (? & ? & ? & ? & ? & ? & ? & ?) by (repeat split; congruence).
  exists m', h'. split; [done|]. split; [|split; [done|]].
  - apply (attached_ext h); [apply Hother; congruence..|done].
  - repeat (apply NoDup_cons; split;
            [rewrite ?not_elem_of_cons; repeat split; try congruence;
             apply not_elem_of_nil|]).
    apply NoDup_nil_2.
Qed.

(** An attached graph at 3, 1, 2 with two fresh components at 4 and 5. *)
Definition graph_and_components : state :=
  ((new_component Component1 VNone ;;; new_component Component2 VNone)
     one_graph).2.

Lemma second_graph_beside_first_witness :
  (attached (heap graph_and_components) 3 1 2 ∧
   class_of (heap graph_and_components) 4 = Some Component1 ∧
   class_of (heap graph_and_components) 5 = Some Component2 ∧
   unshadowed (heap graph_and_components) 4 ∧
   unshadowed (heap graph_and_components) 5 ∧
   4%positive ≠ 1%positive ∧ 5%positive ≠ 2%positive) ∧
  ∃ m' h',
    new_ConcreteMediator (VRef 4) (VRef 5)
      (State (heap graph_and_components) []) =
      (Done (VRef m'), State h' ([] ++ [ENew m' ConcreteMediator])) ∧
    attached h' 3 1 2 ∧
    attached h' m' 4 5 ∧
    NoDup [3%positive; 1%positive; 2%positive; m'; 4%positive; 5%positive].
Proof.
  assert (attached (heap graph_and_components) 3 1 2) as G by (by vm_compute).
  assert (class_of (heap graph_and_components) 4 = Some Component1) as H1
    by (vm_compute; reflexivity).
  assert (class_of (heap graph_and_components) 5 = Some Component2) as H2
    by (vm_compute; reflexivity).
  assert (unshadowed (heap graph_and_components) 4) as H3
    by (vm_compute; repeat split).
  assert (unshadowed (heap graph_and_components) 5) as H4
    by (vm_compute; repeat split).
  assert (4%positive ≠ 1%positive) as H5 by discriminate.
  assert (5%positive ≠ 2%positive) as H6 by discriminate.
  split; [exact (conj G (conj H1 (conj H2 (conj H3 (conj H4 (conj H5 H6))))))|].
  exact (second_graph_beside_first (heap graph_and_components) [] 3 1 2 4 5
           G H1 H2 H3 H4 H5 H6).
Defined.
